(** * SASTRO-STARS: the celestial data and projection engine

    A shallow embedding of [src/types.ts], [src/services/starGen.ts] and the
    render loop of [src/components/Visualizer.tsx].

    JavaScript [number]s are modelled as real numbers: [+], [-], [*], [/],
    [Math.min], [Math.max], [Math.sin] ... are the exact operations of [R];
    comparisons are the decidable order of [R] turned into booleans.  The
    development is therefore about the arithmetic the code writes down, not
    about binary64 rounding. *)

From Stdlib Require Import Reals Lra Lia List String Bool Arith ZArith.
From Stdlib Require Import Sorted Permutation.
Import ListNotations.
Open Scope R_scope.

(** ** JavaScript numeric primitives *)

Module JS.

Definition ltb (x y : R) : bool := if Rlt_dec x y then true else false.
Definition leb (x y : R) : bool := if Rle_dec x y then true else false.
Definition gtb (x y : R) : bool := ltb y x.
Definition geb (x y : R) : bool := leb y x.
Definition eqb (x y : R) : bool := if Req_dec_T x y then true else false.

(** [Math.trunc], used by the remainder operator. *)
Definition trunc (x : R) : Z :=
  if Rle_dec 0 x then Int_part x else (- Int_part (- x))%Z.

(** [x % y]: the remainder has the sign of the dividend. *)
Definition rem (x y : R) : R := x - y * IZR (trunc (x / y)).

(** [Math.log10], for a positive argument.  ([ln] is 0 elsewhere, where
    the code gets [NaN] or [-Infinity]: what is proved of a logarithm below
    comes with the positivity of its argument.) *)
Definition log10 (x : R) : R := ln x / ln 10.

(** [Math.pow] with a real exponent and a positive base. *)
Definition powr (b e : R) : R := exp (e * ln b).

(** [Math.atan2 (y, x)]. *)
Definition atan2 (y x : R) : R :=
  if Rlt_dec 0 x then atan (y / x)
  else if Rlt_dec x 0 then
         if Rle_dec 0 y then atan (y / x) + PI else atan (y / x) - PI
  else if Rlt_dec 0 y then PI / 2
  else if Rlt_dec y 0 then - (PI / 2)
  else 0.

End JS.

Notation "x <? y" := (JS.ltb x y) (at level 70, no associativity) : R_scope.
Notation "x <=? y" := (JS.leb x y) (at level 70, no associativity) : R_scope.
Notation "x >? y" := (JS.gtb x y) (at level 70, no associativity) : R_scope.
Notation "x >=? y" := (JS.geb x y) (at level 70, no associativity) : R_scope.

(** ** [src/types.ts] *)

Module AppMode.
Inductive t : Set := SKY | CLASSIFICATION | GALAXY | HR_DIAGRAM | CENSUS.

Definition eqb (a b : t) : bool :=
  match a, b with
  | SKY, SKY | CLASSIFICATION, CLASSIFICATION | GALAXY, GALAXY
  | HR_DIAGRAM, HR_DIAGRAM | CENSUS, CENSUS => true
  | _, _ => false
  end.

End AppMode.

Module SpectralType.
Inductive t : Set := O | B | A | F | G | K | M.

Definition eqb (a b : t) : bool :=
  match a, b with
  | O, O | B, B | A, A | F, F | G, G | K, K | M, M => true
  | _, _ => false
  end.

(** [Object.values(SpectralType)]. *)
Definition values : list t := [O; B; A; F; G; K; M].
End SpectralType.

Record Star : Type := mkStar {
  id : nat;
  ra : R;
  dec : R;
  hrX : R;
  hrY : R;
  galX : R;
  galY : R;
  galZ : R;
  spectralType : SpectralType.t;
  temperature : R;
  luminosity : R;
  radius : R;
  apparentMagnitude : R;
  absoluteMagnitude : R;
  distance : R;
  color : string;
  baseSize : R
}.

Record ObserverState : Type := mkObserver {
  latitude : R;
  localSiderealTime : R;
  lightPollutionLimit : R;
  isPaused : bool;
  timeSpeed : R
}.

(** [arr.includes(x)] on an array of spectral types. *)
Definition includes (l : list SpectralType.t) (x : SpectralType.t) : bool :=
  existsb (SpectralType.eqb x) l.

(** ** [src/components/Visualizer.tsx] *)

Module Visualizer.

(** [transitionRef.current]. *)
Record TransitionState : Type := mkTransition {
  progress : R;
  sourceMode : AppMode.t;
  targetMode : AppMode.t;
  startTime : R;
  duration : R
}.

(** The value [useRef] is initialised with on mount. *)
Definition initialTransition (mode : AppMode.t) : TransitionState :=
  {| progress := 1; sourceMode := mode; targetMode := mode;
     startTime := 0; duration := 1500 |}.

(** *** Derived limits *)

Definition instrumentLimit (observationalPower : R) : R :=
  3 + (observationalPower * 12).

Definition pollutionLimit (observer : ObserverState) : R :=
  2.5 + (lightPollutionLimit observer * 4.5).

Definition effectiveLimit (observationalPower : R) (observer : ObserverState) : R :=
  Rmin (instrumentLimit observationalPower)
       (pollutionLimit observer + (observationalPower * 5)).

(** *** The effect on [[mode]]: [now] is [performance.now()]. *)

Definition modeEffect (now : R) (mode : AppMode.t) (tr : TransitionState)
  : TransitionState :=
  if negb (AppMode.eqb mode (targetMode tr)) then
    {| progress := 0;
       sourceMode := targetMode tr;
       targetMode := mode;
       startTime := now;
       duration := duration tr |}
  else tr.

(** *** The render callback, step 1: time and rotation *)

(** [lastTimeRef]: returns [delta] and the new content of the ref. *)
Definition tick (lastTime time : R) : R * R :=
  let lastTime0 := if JS.eqb lastTime 0 then time else lastTime in
  (time - lastTime0, time).

(** The argument of the [setObserver] call, if the call is made. *)
Definition rotate (mode : AppMode.t) (currentObserver : ObserverState) (delta : R)
  : option ObserverState :=
  if negb (isPaused currentObserver) && AppMode.eqb mode AppMode.SKY then
    let newLST :=
      JS.rem (localSiderealTime currentObserver
              + (delta * 0.01 * timeSpeed currentObserver)) 360 in
    Some {| latitude := latitude currentObserver;
            localSiderealTime := newLST;
            lightPollutionLimit := lightPollutionLimit currentObserver;
            isPaused := isPaused currentObserver;
            timeSpeed := timeSpeed currentObserver |}
  else None.

(** *** Step 2: transition math.  Returns the updated ref and the local [t]. *)

Definition easeOutCubic (t : R) : R := 1 - (1 - t) ^ 3.

Definition advance (time : R) (tr : TransitionState) : TransitionState * R :=
  let t := progress tr in
  if t <? 1 then
    let elapsed := time - startTime tr in
    let t := Rmin (elapsed / duration tr) 1 in
    let ease := easeOutCubic t in
    ({| progress := ease;
        sourceMode := sourceMode tr;
        targetMode := targetMode tr;
        startTime := startTime tr;
        duration := duration tr |}, ease)
  else (tr, t).

(** What happens to [transitionRef] over a session: the application
    requests a mode (the effect runs at [now]) or a frame is rendered at
    [time]. *)
Inductive Event : Type :=
| Request (now : R) (mode : AppMode.t)
| Tick (time : R).

Definition step (tr : TransitionState) (ev : Event) : TransitionState :=
  match ev with
  | Request now mode => modeEffect now mode tr
  | Tick time => fst (advance time tr)
  end.

Definition run (evs : list Event) (tr : TransitionState) : TransitionState :=
  fold_left step evs tr.

(** *** Step 4: the body of [stars.forEach] *)

Definition deg2rad : R := PI / 180.

Record Pos : Type := mkPos { x : R; y : R }.

(** What is passed to the drawing surface for one star. *)
Record DrawCmd : Type := mkDraw {
  arcX : R;
  arcY : R;
  arcRadius : R;
  fillStyle : string;
  globalAlpha : R;
  shadowBlur : R
}.

(** The four ways the callback ends for a star: the three [return]s and
    the draw at the end. *)
Inductive Outcome : Type :=
| Filtered
| Culled
| Invisible
| Drawn (cmd : DrawCmd).

Section ForEachBody.
Variable mode : AppMode.t.
Variable effectiveLimit : R.
Variable activeFilters : list SpectralType.t.
Variable currentObserver : ObserverState.
Variable tr : TransitionState.
Variable t : R.
Variable time : R.
Variables centerX centerY scaleFactor : R.

Definition sinAlt (star : Star) : R :=
  let latRad := latitude currentObserver * deg2rad in
  let lstRad := localSiderealTime currentObserver * deg2rad in
  let haRad := lstRad - ra star * deg2rad in
  let decRad := dec star * deg2rad in
  sin decRad * sin latRad + cos decRad * cos latRad * cos haRad.

Definition altDeg (star : Star) : R := asin (sinAlt star) * (180 / PI).

Definition azRad (star : Star) : R :=
  let latRad := latitude currentObserver * deg2rad in
  let sinLat := sin latRad in
  let cosLat := cos latRad in
  let lstRad := localSiderealTime currentObserver * deg2rad in
  let decRad := dec star * deg2rad in
  let haRad := lstRad - ra star * deg2rad in
  let sinDec := sin decRad in
  let cosDec := cos decRad in
  let sinHA := sin haRad in
  let altRad := asin (sinAlt star) in
  let cosAlt := cos altRad in
  let cosAz := (sinDec - sinAlt star * sinLat) / (cosAlt * cosLat + 0.0001) in
  let sinAz := (- cosDec * sinHA) / (cosAlt + 0.0001) in
  JS.atan2 sinAz cosAz.

Definition skyMode (m : AppMode.t) : bool :=
  AppMode.eqb m AppMode.SKY || AppMode.eqb m AppMode.CLASSIFICATION.

(** The guard of the hard cull. *)
Definition horizonCull (star : Star) : bool :=
  (progress tr >=? 1) && skyMode mode && (altDeg star <? -5).

Definition getScreenPos (star : Star) (m : AppMode.t) : Pos :=
  match m with
  | AppMode.HR_DIAGRAM =>
      {| x := hrX star * scaleFactor * 1.5;
         y := hrY star * scaleFactor * 0.8 |}
  | AppMode.GALAXY =>
      let rot := time * 0.00005 in
      let gx := galX star * cos rot - galY star * sin rot in
      let gy := galX star * sin rot + galY star * cos rot in
      {| x := gx * scaleFactor * 2.5;
         y := (gy * 0.4 + galZ star * 20) * scaleFactor * 2.5 |}
  | _ =>
      let r := (90 - altDeg star) / 90 in
      let theta := azRad star - PI / 2 in
      {| x := r * cos theta * scaleFactor * 1.8;
         y := r * sin theta * scaleFactor * 1.8 |}
  end.

Definition currentX (star : Star) : R :=
  let startPos := getScreenPos star (sourceMode tr) in
  let endPos := getScreenPos star (targetMode tr) in
  centerX + (x startPos + (x endPos - x startPos) * t).

Definition currentY (star : Star) : R :=
  let startPos := getScreenPos star (sourceMode tr) in
  let endPos := getScreenPos star (targetMode tr) in
  centerY + (y startPos + (y endPos - y startPos) * t).

(** The radius of the circle.  In HR-diagram mode it is the logarithm of
    the physical radius, which the catalogue keeps positive. *)
Definition starRadius (star : Star) : R :=
  let radius0 := Rmax 0.5 ((15 - apparentMagnitude star) / 5) in
  if AppMode.eqb mode AppMode.HR_DIAGRAM then
    let radius1 := JS.log10 (radius star * 10) * 2 in
    if radius1 <? 1 then 1 else radius1
  else radius0.

(** [alpha] after the fade of faint stars. *)
Definition magnitudeAlpha (star : Star) : R :=
  if apparentMagnitude star >? effectiveLimit - 1
  then effectiveLimit - apparentMagnitude star
  else 1.

Definition extinction (star : Star) : R :=
  if altDeg star <? 30 then (30 - altDeg star) / 30 else 0.

Definition extinctionFactor (star : Star) : R :=
  if skyMode mode then 1 - (extinction star * 0.7)
  else if AppMode.eqb (sourceMode tr) AppMode.SKY then
    let skyExtinction := 1 - (extinction star * 0.7) in
    skyExtinction + (1 - skyExtinction) * t
  else 1.

(** The factor of the last update of [alpha]; 1 when the branch is not
    taken. *)
Definition horizonFade (star : Star) : R :=
  if (altDeg star <? 0)
     && (AppMode.eqb mode AppMode.SKY
         || AppMode.eqb (targetMode tr) AppMode.SKY)
  then Rmax 0 (1 + (altDeg star / 5))
  else 1.

Definition finalAlpha (star : Star) : R :=
  magnitudeAlpha star * extinctionFactor star * horizonFade star.

Definition body (star : Star) : Outcome :=
  if negb (includes activeFilters (spectralType star)) then Filtered
  else if apparentMagnitude star >? effectiveLimit then Filtered
  else if horizonCull star then Culled
  else
    let alpha := finalAlpha star in
    if alpha <=? 0 then Invisible
    else
      let radius := starRadius star in
      Drawn {| arcX := currentX star;
               arcY := currentY star;
               arcRadius := radius;
               fillStyle := color star;
               globalAlpha := alpha;
               shadowBlur :=
                 if (radius >? 1.8) && (alpha >? 0.5)
                 then radius * 3 else 0 |}.

(** [stars.forEach]: the accumulator is [visibleCount] and the draw calls
    made so far, in order. *)
Definition visit (acc : nat * list DrawCmd) (star : Star) : nat * list DrawCmd :=
  match body star with
  | Drawn cmd => (S (fst acc), snd acc ++ [cmd])
  | _ => acc
  end.

Definition forEach (stars : list Star) : nat * list DrawCmd :=
  fold_left visit stars (0%nat, []).

(** Opacity of the horizon ring, when it is drawn. *)
Definition horizonOpacity : option R :=
  if skyMode mode then Some t
  else if AppMode.eqb (sourceMode tr) AppMode.SKY then Some (1 - t)
  else None.

(** [globalAlpha] of the HR axes, when they are drawn. *)
Definition axesAlpha : option R :=
  if AppMode.eqb mode AppMode.HR_DIAGRAM then Some t else None.

End ForEachBody.

(** *** One frame *)

Record Props : Type := mkProps {
  stars : list Star;
  mode : AppMode.t;
  observationalPower : R;
  activeFilters : list SpectralType.t;
  observer : ObserverState
}.

(** The refs the callback reads and writes, and the canvas size. *)
Record Refs : Type := mkRefs {
  lastTimeRef : R;
  transitionRef : TransitionState;
  observerRef : ObserverState
}.

Record Canvas : Type := mkCanvas { clientWidth : R; clientHeight : R }.

Record Frame : Type := mkFrame {
  setObserverArg : option ObserverState;
  lastTimeRef' : R;
  transitionRef' : TransitionState;
  draws : list DrawCmd;
  horizon : option R;
  axes : option R;
  setStatsArg : nat
}.

(** The [forEach] callback as one frame instantiates it. *)
Definition frameBody (p : Props) (canvas : Canvas) (refs : Refs) (time : R)
  : Star -> Outcome :=
  let '(tr, t) := advance time (transitionRef refs) in
  body (mode p) (effectiveLimit (observationalPower p) (observer p))
       (activeFilters p) (observerRef refs) tr t time
       (clientWidth canvas / 2) (clientHeight canvas / 2)
       (Rmin (clientWidth canvas) (clientHeight canvas) * 0.4).

Definition render (p : Props) (canvas : Canvas) (refs : Refs) (time : R) : Frame :=
  let currentObserver := observerRef refs in
  let '(delta, lastTime) := tick (lastTimeRef refs) time in
  let written := rotate (mode p) currentObserver delta in
  let '(tr, t) := advance time (transitionRef refs) in
  let width := clientWidth canvas in
  let height := clientHeight canvas in
  let centerX := width / 2 in
  let centerY := height / 2 in
  let scaleFactor := Rmin width height * 0.4 in
  let limit := effectiveLimit (observationalPower p) (observer p) in
  let '(visibleCount, cmds) :=
    forEach (mode p) limit (activeFilters p) currentObserver tr t time
            centerX centerY scaleFactor (stars p) in
  {| setObserverArg := written;
     lastTimeRef' := lastTime;
     transitionRef' := tr;
     draws := cmds;
     horizon := horizonOpacity (mode p) tr t;
     axes := axesAlpha (mode p) t;
     setStatsArg := visibleCount |}.

End Visualizer.

(** ** [src/services/starGen.ts] *)

Module StarGen.

(** *** The entropy source

    [Math.random] is a state monad over a fixed sequence of draws: the
    state is the number of draws consumed so far. *)

Definition Rand (A : Type) : Type := (nat -> R) -> nat -> A * nat.

Definition ret {A : Type} (a : A) : Rand A := fun _ k => (a, k).

Definition bind {A B : Type} (c : Rand A) (f : A -> Rand B) : Rand B :=
  fun src k => let '(a, k') := c src k in f a src k'.

Definition random : Rand R := fun src k => (src k, S k).

Notation "x <- c ;; f" := (bind c (fun x => f))
  (at level 61, c at next level, right associativity).

Definition TOTAL_STARS : nat := 7 * 1000.

Definition TYPE_COLORS (ty : SpectralType.t) : string :=
  match ty with
  | SpectralType.O => "#9bb0ff"
  | SpectralType.B => "#aabfff"
  | SpectralType.A => "#cad7ff"
  | SpectralType.F => "#f8f7ff"
  | SpectralType.G => "#fff4ea"
  | SpectralType.K => "#ffd2a1"
  | SpectralType.M => "#ffcc6f"
  end%string.

Record TypeData : Type := mkTypeData {
  type : SpectralType.t;
  weight : R;
  minTemp : R;
  maxTemp : R
}.

Definition SPECTRAL_WEIGHTS : list TypeData :=
  [ mkTypeData SpectralType.O 0.00003 30000 50000;
    mkTypeData SpectralType.B 0.0013 10000 30000;
    mkTypeData SpectralType.A 0.006 7500 10000;
    mkTypeData SpectralType.F 0.03 6000 7500;
    mkTypeData SpectralType.G 0.076 5200 6000;
    mkTypeData SpectralType.K 0.121 3700 5200;
    mkTypeData SpectralType.M 0.7645 2400 3700 ].

Definition randomRange (min max : R) : Rand R :=
  r <- random ;; ret (r * (max - min) + min).

Definition gaussianRandom (mean stdev : R) : Rand R :=
  r1 <- random ;;
  r2 <- random ;;
  let u := 1 - r1 in
  let v := r2 in
  let z := sqrt (-2.0 * ln u) * cos (2.0 * PI * v) in
  ret (z * stdev + mean).

Definition galacticToEquatorial (l b : R) : R * R :=
  let deg2rad := PI / 180 in
  let rad2deg := 180 / PI in
  let alphaG := 192.85 * deg2rad in
  let deltaG := 27.13 * deg2rad in
  let lCP := 122.93 * deg2rad in
  let lRad := l * deg2rad in
  let bRad := b * deg2rad in
  let sinDec := sin deltaG * sin bRad
                + cos deltaG * cos bRad * cos (lRad - lCP) in
  let dec := asin sinDec in
  let y := cos bRad * sin (lRad - lCP) in
  let x := cos deltaG * sin bRad
           - sin deltaG * cos bRad * cos (lRad - lCP) in
  let ra0 := JS.atan2 y x + alphaG in
  let ra1 := if ra0 <? 0 then ra0 + 2 * PI else ra0 in
  let ra2 := if ra1 >? 2 * PI then ra1 - 2 * PI else ra1 in
  (ra2 * rad2deg, dec * rad2deg).

(** The walk over the weight table: [typeData] starts as the last entry
    and is replaced by the first entry whose weight exceeds what is left
    of [rand]. *)
Fixpoint walk (rand : R) (table : list TypeData) (typeData : TypeData) : TypeData :=
  match table with
  | [] => typeData
  | w :: rest =>
      if rand <? weight w then w else walk (rand - weight w) rest typeData
  end.

Definition pickType (rand : R) : TypeData :=
  walk rand SPECTRAL_WEIGHTS
       (nth (List.length SPECTRAL_WEIGHTS - 1) SPECTRAL_WEIGHTS
            (mkTypeData SpectralType.M 0.7645 2400 3700)).

(** The body of the generation loop for star number [i]. *)
Definition genStar (i : nat) : Rand Star :=
  rand <- random ;;
  let typeData := pickType rand in
  temperature <- randomRange (minTemp typeData) (maxTemp typeData) ;;
  let normalizedTemp := temperature / 5778 in
  spread <- randomRange 0.5 1.5 ;;
  let luminosity := normalizedTemp ^ 7 * spread in
  let radius := sqrt luminosity / normalizedTemp ^ 2 in
  r <- random ;;
  let angle := r * PI * 2 in
  g <- gaussianRandom 0 0.6 ;;
  let distFromCenter := Rabs g in
  let galX := cos (angle + distFromCenter * 4) * distFromCenter in
  let galY := sin (angle + distFromCenter * 4) * distFromCenter in
  galZ <- gaussianRandom 0 0.08 ;;
  let distXY := sqrt (galX * galX + galY * galY) in
  let b := JS.atan2 galZ distXY * (180 / PI) in
  let l := JS.atan2 galY galX * (180 / PI) in
  let '(ra, dec) := galacticToEquatorial l b in
  e <- randomRange 0 3.8 ;;
  let distancePc := JS.powr 10 e in
  let absMag := -2.5 * JS.log10 luminosity + 4.83 in
  let appMag := absMag + 5 * (JS.log10 distancePc - 1) in
  let logTemp := JS.log10 temperature in
  let hrX := - ((logTemp - 3.3) / (4.7 - 3.3) * 2 - 1) in
  let logLum := JS.log10 luminosity in
  let hrY := (logLum - (-4)) / (6 - (-4)) * 2 - 1 in
  ret {| id := i;
         ra := ra;
         dec := dec;
         galX := galX;
         galY := galY;
         galZ := galZ;
         hrX := hrX;
         hrY := - hrY;
         spectralType := type typeData;
         temperature := temperature;
         luminosity := luminosity;
         radius := radius;
         apparentMagnitude := appMag;
         absoluteMagnitude := absMag;
         distance := distancePc;
         color := TYPE_COLORS (type typeData);
         baseSize := Rmax 0.5 (2 - appMag / 10) |}.

(** [for (let i = ...; i < ...; i++)]: [count] iterations are left. *)
Fixpoint loop (count i : nat) : Rand (list Star) :=
  match count with
  | 0%nat => ret []
  | S count' =>
      star <- genStar i ;;
      rest <- loop count' (S i) ;;
      ret (star :: rest)
  end.

(** [stars.sort((a, b) => a.apparentMagnitude - b.apparentMagnitude)]:
    a stable sort, here by insertion (an earlier star stays before a later
    one of the same magnitude). *)
Fixpoint insert (s : Star) (sorted : list Star) : list Star :=
  match sorted with
  | [] => [s]
  | h :: rest =>
      if apparentMagnitude s <=? apparentMagnitude h
      then s :: h :: rest
      else h :: insert s rest
  end.

Definition sort (l : list Star) : list Star :=
  fold_right insert [] l.

Definition generate (count : nat) : Rand (list Star) :=
  stars <- loop count 0 ;; ret (sort stars).

Definition generateStars : Rand (list Star) := generate TOTAL_STARS.

(** The stars the catalogue holds for a given sequence of draws. *)
Definition catalogue (src : nat -> R) : list Star :=
  fst (generateStars src 0%nat).

End StarGen.

(** ** [src/App.tsx]: the initial state of the application *)

Module App.

Definition mode : AppMode.t := AppMode.SKY.

Definition observationalPower : R := 0.05.

Definition activeFilters : list SpectralType.t := SpectralType.values.

Definition observer : ObserverState :=
  {| latitude := 45;
     localSiderealTime := 0;
     lightPollutionLimit := 0.2;
     isPaused := false;
     timeSpeed := 1 |}.

(** The updater [toggleFilter] passes to [setActiveFilters]. *)
Definition toggleFilter (type : SpectralType.t) (prev : list SpectralType.t)
  : list SpectralType.t :=
  if includes prev type
  then filter (fun t => negb (SpectralType.eqb t type)) prev
  else prev ++ [type].

End App.

(** ** [src/components/Controls.tsx] *)

Module Controls.

Record Preset : Type := mkPreset {
  label : string;
  value : R;
  maxRange : R;
  desc : string
}.

Definition POWER_PRESETS : list Preset :=
  [ mkPreset "Naked Eye" 0.05 0.2 "Limit ~Mag 6 (Human Eye)";
    mkPreset "Binoculars" 0.35 0.5 "Limit ~Mag 10 (7x50)";
    mkPreset "Telescope" 0.65 0.8 "Limit ~Mag 13 (6-inch)";
    mkPreset "Deep Survey" 1.0 1.1 "Limit ~Mag 16+ (Observatory)" ]%string.

(** [arr.findIndex(f)]: the index of the first match, -1 without one. *)
Fixpoint findIndexFrom {A : Type} (f : A -> bool) (l : list A) (i : Z) : Z :=
  match l with
  | [] => (-1)%Z
  | a :: rest => if f a then i else findIndexFrom f rest (i + 1)%Z
  end.

Definition findIndex {A : Type} (f : A -> bool) (l : list A) : Z :=
  findIndexFrom f l 0%Z.

Definition currentPresetIndex (observationalPower : R) : Z :=
  findIndex (fun p => observationalPower <? maxRange p) POWER_PRESETS.

(** [POWER_PRESETS[...]]: [None] stands for [undefined]. *)
Definition activePreset (observationalPower : R) : option Preset :=
  let i := currentPresetIndex observationalPower in
  nth_error POWER_PRESETS
    (Z.to_nat (if (i =? -1)%Z
               then (Z.of_nat (List.length POWER_PRESETS) - 1)%Z
               else i)).

(** The calls of [updateObserver] the panel makes: the key and its value. *)
Inductive Update : Type :=
| isPausedKey (v : bool)
| timeSpeedKey (v : R)
| latitudeKey (v : R)
| lightPollutionLimitKey (v : R).

Definition updateObserver (observer : ObserverState) (u : Update) : ObserverState :=
  match u with
  | isPausedKey v =>
      {| latitude := latitude observer;
         localSiderealTime := localSiderealTime observer;
         lightPollutionLimit := lightPollutionLimit observer;
         isPaused := v;
         timeSpeed := timeSpeed observer |}
  | timeSpeedKey v =>
      {| latitude := latitude observer;
         localSiderealTime := localSiderealTime observer;
         lightPollutionLimit := lightPollutionLimit observer;
         isPaused := isPaused observer;
         timeSpeed := v |}
  | latitudeKey v =>
      {| latitude := v;
         localSiderealTime := localSiderealTime observer;
         lightPollutionLimit := lightPollutionLimit observer;
         isPaused := isPaused observer;
         timeSpeed := timeSpeed observer |}
  | lightPollutionLimitKey v =>
      {| latitude := latitude observer;
         localSiderealTime := localSiderealTime observer;
         lightPollutionLimit := v;
         isPaused := isPaused observer;
         timeSpeed := timeSpeed observer |}
  end.

(** The click handler of the pause button. *)
Definition togglePause (observer : ObserverState) : ObserverState :=
  updateObserver observer (isPausedKey (negb (isPaused observer))).

End Controls.

(** ** Histories on a clock that does not run backwards *)

Module Clock.

(** Every frame of the history is rendered no earlier than the transition
    it advances was requested. *)
Fixpoint timely (evs : list Visualizer.Event) (tr : Visualizer.TransitionState)
  : Prop :=
  match evs with
  | [] => True
  | ev :: rest =>
      match ev with
      | Visualizer.Tick time => Visualizer.startTime tr <= time
      | Visualizer.Request _ _ => True
      end
      /\ timely rest (Visualizer.step tr ev)
  end.

End Clock.

(** ** The specification's own words, for comparison with the code *)

Module Spec.

(** [clamp(v, lo, hi)], as in the time fraction
    [clamp((now - startTime) / 1500, 0, 1)]. *)
Definition clamp (v lo hi : R) : R := Rmax lo (Rmin v hi).

End Spec.

(** ** Concrete inputs used to evaluate the model *)

Module Sample.

(** A star on the celestial equator at right ascension [ra0]. *)
Definition star (ty : SpectralType.t) (ra0 magnitude : R) : Star :=
  {| id := 0;
     ra := ra0;
     dec := 0;
     hrX := 0;
     hrY := 0;
     galX := 0;
     galY := 0;
     galZ := 0;
     spectralType := ty;
     temperature := 5778;
     luminosity := 1;
     radius := 1;
     apparentMagnitude := magnitude;
     absoluteMagnitude := 4.83;
     distance := 10;
     color := StarGen.TYPE_COLORS ty;
     baseSize := 1 |}.

(** An observer on the equator at sidereal time 0: a star of the equator
    at right ascension 90 is on the horizon. *)
Definition equator : ObserverState :=
  {| latitude := 0;
     localSiderealTime := 0;
     lightPollutionLimit := 0.2;
     isPaused := false;
     timeSpeed := 1 |}.

Definition canvas : Visualizer.Canvas :=
  {| Visualizer.clientWidth := 800; Visualizer.clientHeight := 600 |}.

(** A transition from [source] to [target] requested at [start]. *)
Definition leaving (source target : AppMode.t) (start : R)
  : Visualizer.TransitionState :=
  Visualizer.modeEffect start target (Visualizer.initialTransition source).

(** The application's initial settings in mode [m] over a catalogue. *)
Definition props (m : AppMode.t) (catalogue : list Star) : Visualizer.Props :=
  {| Visualizer.stars := catalogue;
     Visualizer.mode := m;
     Visualizer.observationalPower := App.observationalPower;
     Visualizer.activeFilters := App.activeFilters;
     Visualizer.observer := App.observer |}.

(** The refs one second after the first frame. *)
Definition refs (tr : Visualizer.TransitionState) (current : ObserverState)
  : Visualizer.Refs :=
  {| Visualizer.lastTimeRef := 1000;
     Visualizer.transitionRef := tr;
     Visualizer.observerRef := current |}.

(** Draws of [Math.random]: the first is 0, every later one 0.99. *)
Definition hotSource (k : nat) : R :=
  match k with 0%nat => 0 | _ => 0.99 end.

End Sample.

(** * Properties *)

(** ** Comparisons and enumerations *)

Lemma ltb_true x y : (x <? y) = true <-> x < y.
Proof. unfold JS.ltb; destruct (Rlt_dec x y); split; intros; (lra || discriminate || reflexivity). Qed.

Lemma ltb_false x y : (x <? y) = false <-> y <= x.
Proof. unfold JS.ltb; destruct (Rlt_dec x y); split; intros; (lra || discriminate || reflexivity). Qed.

Lemma leb_true x y : (x <=? y) = true <-> x <= y.
Proof. unfold JS.leb; destruct (Rle_dec x y); split; intros; (lra || discriminate || reflexivity). Qed.

Lemma leb_false x y : (x <=? y) = false <-> y < x.
Proof. unfold JS.leb; destruct (Rle_dec x y); split; intros; (lra || discriminate || reflexivity). Qed.

Lemma gtb_true x y : (x >? y) = true <-> y < x.
Proof. apply ltb_true. Qed.

Lemma gtb_false x y : (x >? y) = false <-> x <= y.
Proof. apply ltb_false. Qed.

Lemma geb_true x y : (x >=? y) = true <-> y <= x.
Proof. apply leb_true. Qed.

Lemma geb_false x y : (x >=? y) = false <-> x < y.
Proof. apply leb_false. Qed.

(** Turns the boolean comparisons of the context into the order of [R]. *)
Ltac js_cmp :=
  repeat match goal with
    | H : JS.gtb _ _ = true |- _ => apply gtb_true in H
    | H : JS.gtb _ _ = false |- _ => apply gtb_false in H
    | H : JS.geb _ _ = true |- _ => apply geb_true in H
    | H : JS.geb _ _ = false |- _ => apply geb_false in H
    | H : JS.ltb _ _ = true |- _ => apply ltb_true in H
    | H : JS.ltb _ _ = false |- _ => apply ltb_false in H
    | H : JS.leb _ _ = true |- _ => apply leb_true in H
    | H : JS.leb _ _ = false |- _ => apply leb_false in H
    end.

(** Decides a comparison between two concrete numbers. *)
Ltac js_eval :=
  repeat match goal with
    | |- context [JS.gtb ?a ?b] =>
        first [ replace (JS.gtb a b) with true by (symmetry; apply gtb_true; lra)
              | replace (JS.gtb a b) with false by (symmetry; apply gtb_false; lra) ]
    | |- context [JS.geb ?a ?b] =>
        first [ replace (JS.geb a b) with true by (symmetry; apply geb_true; lra)
              | replace (JS.geb a b) with false by (symmetry; apply geb_false; lra) ]
    | |- context [JS.ltb ?a ?b] =>
        first [ replace (JS.ltb a b) with true by (symmetry; apply ltb_true; lra)
              | replace (JS.ltb a b) with false by (symmetry; apply ltb_false; lra) ]
    | |- context [JS.leb ?a ?b] =>
        first [ replace (JS.leb a b) with true by (symmetry; apply leb_true; lra)
              | replace (JS.leb a b) with false by (symmetry; apply leb_false; lra) ]
    end.

Lemma mode_eqb_eq a b : AppMode.eqb a b = true <-> a = b.
Proof. destruct a, b; simpl; split; intros; (reflexivity || discriminate). Qed.

Lemma mode_eqb_neq a b : AppMode.eqb a b = false <-> a <> b.
Proof. destruct a, b; simpl; split; intros; (congruence || discriminate). Qed.

Lemma mode_eqb_refl a : AppMode.eqb a a = true.
Proof. destruct a; reflexivity. Qed.

Lemma type_eqb_eq a b : SpectralType.eqb a b = true <-> a = b.
Proof. destruct a, b; simpl; split; intros; (reflexivity || discriminate). Qed.

Lemma includes_In l ty : includes l ty = true <-> In ty l.
Proof.
  unfold includes. rewrite existsb_exists. split.
  - intros [ty' [Hin E]]. apply type_eqb_eq in E. now subst.
  - intros Hin. exists ty. split; [assumption | now apply type_eqb_eq].
Qed.

Lemma skyMode_true m :
  Visualizer.skyMode m = true <-> m = AppMode.SKY \/ m = AppMode.CLASSIFICATION.
Proof.
  unfold Visualizer.skyMode. destruct m; simpl; split; intros H;
    try discriminate; try reflexivity; auto;
    destruct H; discriminate.
Qed.

(** ** The magnitude limit *)

Section Limits.
Import Visualizer.
Variable observer : ObserverState.

Lemma effectiveLimit_formula p :
  effectiveLimit p observer
  = Rmin (3 + 12 * p) ((2.5 + 4.5 * lightPollutionLimit observer) + 5 * p).
Proof.
  unfold effectiveLimit, instrumentLimit, pollutionLimit.
  f_equal; ring.
Qed.

Lemma instrumentLimit_monotone p1 p2 :
  p1 <= p2 -> instrumentLimit p1 <= instrumentLimit p2.
Proof. unfold instrumentLimit; lra. Qed.

(** C9: for a fixed light-pollution setting the effective limit, the
    minimum of [3 + 12 p] and [(2.5 + 4.5 l) + 5 p], does not decrease when
    the observational power [p] grows. *)
Theorem effectiveLimit_monotone p1 p2 :
  p1 <= p2 ->
  effectiveLimit p1 observer
  = Rmin (3 + 12 * p1) ((2.5 + 4.5 * lightPollutionLimit observer) + 5 * p1)
  /\ effectiveLimit p1 observer <= effectiveLimit p2 observer.
Proof.
  intros Hp. split; [apply effectiveLimit_formula |].
  unfold effectiveLimit.
  pose proof (instrumentLimit_monotone p1 p2 Hp) as Hi.
  apply Rmin_glb.
  - eapply Rle_trans; [apply Rmin_l | exact Hi].
  - eapply Rle_trans; [apply Rmin_r | lra].
Qed.

End Limits.

Lemma effectiveLimit_monotone_witness :
  0.05 <= 1
  /\ Visualizer.effectiveLimit 0.05 App.observer
     <= Visualizer.effectiveLimit 1 App.observer.
Proof.
  assert (Hp : 0.05 <= 1) by lra.
  split; [exact Hp | exact (proj2 (effectiveLimit_monotone App.observer 0.05 1 Hp))].
Defined.

(** ** The naked-eye scenario *)

Lemma effectiveLimit_naked_eye observer :
  lightPollutionLimit observer = 0.2 ->
  Visualizer.effectiveLimit 0.05 observer = 3.6.
Proof.
  intros Hl.
  unfold Visualizer.effectiveLimit, Visualizer.instrumentLimit,
    Visualizer.pollutionLimit.
  rewrite Hl. rewrite Rmin_left; lra.
Qed.

Lemma pollution_cap_naked_eye observer :
  lightPollutionLimit observer = 0.2 ->
  Visualizer.pollutionLimit observer + 0.05 * 5 = 3.65.
Proof. intros Hl. unfold Visualizer.pollutionLimit. rewrite Hl. lra. Qed.

Section NakedEye.
Import Visualizer.
Variable mode : AppMode.t.
Variable activeFilters : list SpectralType.t.
Variable currentObserver : ObserverState.
Variable tr : TransitionState.
Variables t time centerX centerY scaleFactor : R.

Local Abbreviation limit := (effectiveLimit App.observationalPower App.observer).
Local Abbreviation bodyAt :=
  (body mode limit activeFilters currentObserver tr t time
        centerX centerY scaleFactor).

Lemma limit_naked_eye : limit = 3.6.
Proof. apply effectiveLimit_naked_eye. reflexivity. Qed.

(** In the scenario a star of magnitude 3.0 lies inside the last magnitude
    below the limit, where the fade applies. *)
Lemma magnitudeAlpha_naked_eye star :
  apparentMagnitude star = 3 -> magnitudeAlpha limit star = 0.6.
Proof.
  intros Hm. unfold magnitudeAlpha. rewrite limit_naked_eye, Hm.
  js_eval. lra.
Qed.

(** C1, as amended: with power 0.05 and light pollution 0.2 the effective
    limit is 3.6, below the pollution cap 3.65; a star of an active
    spectral type and magnitude 3.0 passes the filter and its alpha before
    extinction and horizon fade is 0.6; a star of magnitude 6.0 is
    excluded. *)
Theorem naked_eye_scenario star :
  limit = 3.6
  /\ pollutionLimit App.observer + App.observationalPower * 5 = 3.65
  /\ (In (spectralType star) activeFilters ->
      apparentMagnitude star = 3 ->
      bodyAt star <> Filtered /\ magnitudeAlpha limit star = 0.6)
  /\ (apparentMagnitude star = 6 -> bodyAt star = Filtered).
Proof.
  split; [apply limit_naked_eye |].
  split; [apply pollution_cap_naked_eye; reflexivity |].
  split.
  - intros Hin Hm. split; [| now apply magnitudeAlpha_naked_eye].
    apply includes_In in Hin.
    unfold body. rewrite Hin. simpl negb. cbv iota.
    rewrite limit_naked_eye, Hm.
    replace (3 >? 3.6) with false by (symmetry; apply gtb_false; lra).
    destruct (horizonCull _ _ _ _); [discriminate |].
    destruct (_ <=? 0); discriminate.
  - intros Hm. unfold body.
    destruct (negb _); [reflexivity |].
    rewrite limit_naked_eye, Hm.
    replace (6 >? 3.6) with true by (symmetry; apply gtb_true; lra).
    reflexivity.
Qed.

End NakedEye.

Lemma naked_eye_scenario_witness :
  In (spectralType (Sample.star SpectralType.G 0 3)) App.activeFilters
  /\ apparentMagnitude (Sample.star SpectralType.G 0 3) = 3
  /\ Visualizer.body App.mode
       (Visualizer.effectiveLimit App.observationalPower App.observer)
       App.activeFilters App.observer
       (Visualizer.initialTransition App.mode) 1 0 400 300 240
       (Sample.star SpectralType.G 0 3)
     <> Visualizer.Filtered
  /\ Visualizer.magnitudeAlpha
       (Visualizer.effectiveLimit App.observationalPower App.observer)
       (Sample.star SpectralType.G 0 3) = 0.6.
Proof.
  assert (Hin : In (spectralType (Sample.star SpectralType.G 0 3)) App.activeFilters)
    by (simpl; tauto).
  assert (Hm : apparentMagnitude (Sample.star SpectralType.G 0 3) = 3)
    by reflexivity.
  split; [exact Hin |]. split; [exact Hm |].
  exact (proj1 (proj2 (proj2
           (naked_eye_scenario App.mode App.activeFilters App.observer
              (Visualizer.initialTransition App.mode) 1 0 400 300 240
              (Sample.star SpectralType.G 0 3)))) Hin Hm).
Defined.

(** C1 as the specification states it fails: the star of magnitude 3.0 is
    inside the fade band, so its alpha is not 1. *)
Lemma naked_eye_alpha_is_not_1 :
  ~ (Visualizer.effectiveLimit App.observationalPower App.observer = 3.6
     /\ Visualizer.body App.mode
          (Visualizer.effectiveLimit App.observationalPower App.observer)
          App.activeFilters App.observer
          (Visualizer.initialTransition App.mode) 1 0 400 300 240
          (Sample.star SpectralType.G 0 3)
        <> Visualizer.Filtered
     /\ Visualizer.magnitudeAlpha
          (Visualizer.effectiveLimit App.observationalPower App.observer)
          (Sample.star SpectralType.G 0 3) = 1).
Proof.
  intros [_ [_ H1]].
  rewrite magnitudeAlpha_naked_eye in H1 by reflexivity. lra.
Qed.

(** ** The transition state machine *)

Section Transition.
Import Visualizer.

Lemma modeEffect_same now tr : modeEffect now (targetMode tr) tr = tr.
Proof. unfold modeEffect. now rewrite mode_eqb_refl. Qed.

Lemma modeEffect_new now mode tr :
  mode <> targetMode tr ->
  modeEffect now mode tr
  = {| progress := 0; sourceMode := targetMode tr; targetMode := mode;
       startTime := now; duration := duration tr |}.
Proof.
  intros Hne. unfold modeEffect.
  apply mode_eqb_neq in Hne. now rewrite Hne.
Qed.

(** A frame writes [progress] only. *)
Lemma advance_frame time tr :
  sourceMode (fst (advance time tr)) = sourceMode tr
  /\ targetMode (fst (advance time tr)) = targetMode tr
  /\ startTime (fst (advance time tr)) = startTime tr
  /\ duration (fst (advance time tr)) = duration tr.
Proof. unfold advance. destruct (progress tr <? 1); simpl; repeat split. Qed.

Lemma run_snoc evs ev tr : run (evs ++ [ev]) tr = step (run evs tr) ev.
Proof. unfold run. now rewrite fold_left_app. Qed.

(** C5: after any history of requests and frames, a request for the
    current target changes nothing, and a request for another mode makes
    the previous target the source, adopts the requested target and resets
    [progress] to 0 and [startTime] to the current time. *)
Theorem request_after_history mode0 evs now mode :
  (mode = targetMode (run evs (initialTransition mode0)) ->
   run (evs ++ [Request now mode]) (initialTransition mode0)
   = run evs (initialTransition mode0))
  /\ (mode <> targetMode (run evs (initialTransition mode0)) ->
      progress (run (evs ++ [Request now mode]) (initialTransition mode0)) = 0
      /\ sourceMode (run (evs ++ [Request now mode]) (initialTransition mode0))
         = targetMode (run evs (initialTransition mode0))
      /\ targetMode (run (evs ++ [Request now mode]) (initialTransition mode0))
         = mode
      /\ startTime (run (evs ++ [Request now mode]) (initialTransition mode0))
         = now).
Proof.
  rewrite run_snoc. simpl step. split.
  - intros ->. apply modeEffect_same.
  - intros Hne. rewrite (modeEffect_new _ _ _ Hne). simpl. repeat split.
Qed.

End Transition.

Lemma request_after_history_witness :
  Visualizer.run
    [Visualizer.Request 100 AppMode.GALAXY; Visualizer.Tick 400;
     Visualizer.Request 500 AppMode.GALAXY]
    (Visualizer.initialTransition AppMode.SKY)
  = Visualizer.run
      [Visualizer.Request 100 AppMode.GALAXY; Visualizer.Tick 400]
      (Visualizer.initialTransition AppMode.SKY)
  /\ Visualizer.progress
       (Visualizer.run
          [Visualizer.Request 100 AppMode.GALAXY; Visualizer.Tick 400;
           Visualizer.Request 500 AppMode.HR_DIAGRAM]
          (Visualizer.initialTransition AppMode.SKY)) = 0
  /\ Visualizer.sourceMode
       (Visualizer.run
          [Visualizer.Request 100 AppMode.GALAXY; Visualizer.Tick 400;
           Visualizer.Request 500 AppMode.HR_DIAGRAM]
          (Visualizer.initialTransition AppMode.SKY)) = AppMode.GALAXY.
Proof.
  assert (Ht : Visualizer.targetMode
                 (Visualizer.run
                    [Visualizer.Request 100 AppMode.GALAXY; Visualizer.Tick 400]
                    (Visualizer.initialTransition AppMode.SKY))
               = AppMode.GALAXY).
  { simpl. now rewrite (proj1 (proj2 (advance_frame _ _))). }
  pose proof (request_after_history AppMode.SKY
                [Visualizer.Request 100 AppMode.GALAXY; Visualizer.Tick 400]
                500 AppMode.GALAXY) as [Hsame _].
  pose proof (request_after_history AppMode.SKY
                [Visualizer.Request 100 AppMode.GALAXY; Visualizer.Tick 400]
                500 AppMode.HR_DIAGRAM) as [_ Hnew].
  split; [apply Hsame; now rewrite Ht |].
  destruct Hnew as [Hp [Hs _]]; [rewrite Ht; discriminate |].
  split; [exact Hp | exact (eq_trans Hs Ht)].
Defined.

(** ** What one frame returns *)

Section Frames.
Import Visualizer.
Variable p : Props.
Variable canvas : Canvas.
Variable refs : Refs.
Variable time : R.

Lemma render_setObserverArg :
  setObserverArg (render p canvas refs time)
  = rotate (mode p) (observerRef refs) (fst (tick (lastTimeRef refs) time)).
Proof.
  unfold render. simpl.
  destruct (advance time (transitionRef refs)) as [tr t].
  destruct (forEach _ _ _ _ _ _ _ _ _ _ _) as [n cmds]. reflexivity.
Qed.

Lemma render_transitionRef :
  transitionRef' (render p canvas refs time)
  = fst (advance time (transitionRef refs)).
Proof.
  unfold render. simpl.
  destruct (advance time (transitionRef refs)) as [tr t].
  destruct (forEach _ _ _ _ _ _ _ _ _ _ _) as [n cmds]. reflexivity.
Qed.

(** The count reported and the draw calls of a frame are those of the
    traversal of the catalogue with the frame's callback. *)
Lemma render_forEach :
  (setStatsArg (render p canvas refs time), draws (render p canvas refs time))
  = fold_left
      (fun acc star =>
         match frameBody p canvas refs time star with
         | Drawn cmd => (S (fst acc), snd acc ++ [cmd])
         | _ => acc
         end)
      (stars p) (0%nat, []).
Proof.
  unfold render, frameBody. simpl.
  destruct (advance time (transitionRef refs)) as [tr t].
  unfold forEach, visit.
  destruct (fold_left _ _ _) as [n cmds]. reflexivity.
Qed.

End Frames.

(** ** Sidereal time *)

Lemma rem_multiple x y : exists k : Z, JS.rem x y = x - y * IZR k.
Proof. unfold JS.rem. now exists (JS.trunc (x / y)). Qed.

Lemma rem_360_range x : 0 <= x -> 0 <= JS.rem x 360 < 360.
Proof.
  intros Hx. unfold JS.rem, JS.trunc.
  assert (Hq : 0 <= x / 360) by (apply Rle_mult_inv_pos; lra).
  destruct (Rle_dec 0 (x / 360)) as [_ | Hn]; [| contradiction].
  destruct (base_Int_part (x / 360)) as [Hlo Hhi].
  assert (Hx360 : x = 360 * (x / 360)) by (field).
  lra.
Qed.

Section Sidereal.
Import Visualizer.
Variable p : Props.
Variable canvas : Canvas.
Variable refs : Refs.
Variable time : R.

Local Abbreviation obs := (observerRef refs).
Local Abbreviation delta := (fst (tick (lastTimeRef refs) time)).
Local Abbreviation frame := (render p canvas refs time).

(** [delta] is the time since the previous frame, 0 on the first one. *)
Lemma delta_since_last :
  (lastTimeRef refs <> 0 -> delta = time - lastTimeRef refs)
  /\ (lastTimeRef refs = 0 -> delta = 0).
Proof.
  unfold tick, JS.eqb. simpl.
  destruct (Req_dec_T (lastTimeRef refs) 0); split; intros; (lra || contradiction).
Qed.

Lemma render_lastTimeRef : lastTimeRef' frame = time.
Proof.
  unfold render. simpl.
  destruct (advance time (transitionRef refs)) as [tr t].
  destruct (forEach _ _ _ _ _ _ _ _ _ _ _) as [n cmds]. reflexivity.
Qed.

(** C6: a frame writes the observer exactly when it is not paused and the
    mode is Sky; what it writes is the observer it read with
    [localSiderealTime] advanced by [delta * 0.01 * timeSpeed] and wrapped
    at 360, every other field as it was; otherwise it writes nothing.
    [delta] is the time elapsed since the previous frame,
    [time - lastTimeRef], and 0 on the first frame (when [lastTimeRef] is
    still 0); the frame leaves its own time in [lastTimeRef]. *)
Theorem frame_sidereal_time :
  (lastTimeRef refs <> 0 -> delta = time - lastTimeRef refs)
  /\ (lastTimeRef refs = 0 -> delta = 0)
  /\ lastTimeRef' frame = time
  /\ (isPaused obs = false /\ mode p = AppMode.SKY ->
      exists written,
        setObserverArg frame = Some written
        /\ localSiderealTime written
           = JS.rem (localSiderealTime obs + delta * 0.01 * timeSpeed obs) 360
        /\ (lastTimeRef refs <> 0 ->
            localSiderealTime written
            = JS.rem (localSiderealTime obs
                      + (time - lastTimeRef refs) * 0.01 * timeSpeed obs) 360)
        /\ (lastTimeRef refs = 0 ->
            localSiderealTime written
            = JS.rem (localSiderealTime obs + 0 * 0.01 * timeSpeed obs) 360)
        /\ (exists k : Z,
              localSiderealTime written
              = localSiderealTime obs + delta * 0.01 * timeSpeed obs - 360 * IZR k)
        /\ (0 <= localSiderealTime obs + delta * 0.01 * timeSpeed obs ->
            0 <= localSiderealTime written < 360)
        /\ latitude written = latitude obs
        /\ lightPollutionLimit written = lightPollutionLimit obs
        /\ isPaused written = isPaused obs
        /\ timeSpeed written = timeSpeed obs)
  /\ (setObserverArg frame <> None ->
      isPaused obs = false /\ mode p = AppMode.SKY)
  /\ (isPaused obs = true \/ mode p <> AppMode.SKY ->
      setObserverArg frame = None).
Proof.
  destruct delta_since_last as [Hlater Hfirst].
  split; [exact Hlater |]. split; [exact Hfirst |].
  split; [apply render_lastTimeRef |].
  rewrite render_setObserverArg. unfold rotate.
  split; [| split].
  - intros [Hp Hm]. rewrite Hp, Hm. cbn [negb andb AppMode.eqb].
    eexists. split; [reflexivity |]. cbn [localSiderealTime latitude
      lightPollutionLimit isPaused timeSpeed].
    split; [reflexivity |].
    split; [intros Hne; now rewrite (Hlater Hne) |].
    split; [intros H0; now rewrite (Hfirst H0) |].
    split; [apply rem_multiple |].
    split; [apply rem_360_range |].
    repeat split.
  - destruct (isPaused obs); simpl; [congruence |].
    destruct (AppMode.eqb (mode p) AppMode.SKY) eqn:E; [| congruence].
    apply mode_eqb_eq in E. auto.
  - intros [Hp | Hm].
    + now rewrite Hp.
    + apply mode_eqb_neq in Hm. rewrite Hm. now rewrite andb_false_r.
Qed.

End Sidereal.

(** ** The traversal of the catalogue *)

Section Traversal.
Import Visualizer.
Variable f : Star -> Outcome.

Local Abbreviation visitF :=
  (fun (acc : nat * list DrawCmd) star =>
     match f star with
     | Drawn cmd => (S (fst acc), snd acc ++ [cmd])
     | _ => acc
     end).

Local Abbreviation drawnOf :=
  (flat_map (fun star => match f star with Drawn cmd => [cmd] | _ => [] end)).

Lemma traversal_from stars : forall n cmds,
  fold_left visitF stars (n, cmds)
  = ((n + List.length (drawnOf stars))%nat, cmds ++ drawnOf stars).
Proof.
  induction stars as [| s rest IH]; intros n cmds; simpl.
  - now rewrite Nat.add_0_r, app_nil_r.
  - destruct (f s) as [ | | | cmd]; rewrite IH; simpl; try reflexivity.
    rewrite <- app_assoc. simpl. f_equal. lia.
Qed.

(** A star whose callback does not reach the draw leaves no trace in the
    traversal. *)
Lemma traversal_skips pre star post acc :
  (forall cmd, f star <> Drawn cmd) ->
  fold_left visitF (pre ++ star :: post) acc
  = fold_left visitF (pre ++ post) acc.
Proof.
  intros Hskip. rewrite !fold_left_app. simpl.
  destruct (f star) as [ | | | cmd]; try reflexivity.
  now elim (Hskip cmd).
Qed.

Lemma drawnOf_In stars cmd :
  In cmd (drawnOf stars) <-> exists star, In star stars /\ f star = Drawn cmd.
Proof.
  rewrite in_flat_map. split.
  - intros [star [Hin Hc]]. exists star. split; [assumption |].
    destruct (f star); simpl in Hc; try contradiction.
    destruct Hc as [-> | []]. reflexivity.
  - intros [star [Hin Hf]]. exists star. split; [assumption |].
    rewrite Hf. now left.
Qed.

End Traversal.

Section FrameDraws.
Import Visualizer.
Variable p : Props.
Variable canvas : Canvas.
Variable refs : Refs.
Variable time : R.

Lemma render_draws cmd :
  In cmd (draws (render p canvas refs time))
  <-> exists star, In star (stars p) /\ frameBody p canvas refs time star = Drawn cmd.
Proof.
  pose proof (render_forEach p canvas refs time) as H.
  rewrite traversal_from in H. simpl in H.
  injection H as _ Hd. rewrite Hd. apply drawnOf_In.
Qed.

(** The count reported is the number of draw calls. *)
Lemma render_count :
  setStatsArg (render p canvas refs time)
  = List.length (draws (render p canvas refs time)).
Proof.
  pose proof (render_forEach p canvas refs time) as H.
  rewrite traversal_from in H. simpl in H.
  injection H as Hn Hd. now rewrite Hn, Hd.
Qed.

End FrameDraws.

(** ** Easing and interpolation *)

Section Easing.
Import Visualizer.

Lemma advance_running time tr :
  progress tr < 1 ->
  advance time tr
  = ({| progress := easeOutCubic (Rmin ((time - startTime tr) / duration tr) 1);
        sourceMode := sourceMode tr;
        targetMode := targetMode tr;
        startTime := startTime tr;
        duration := duration tr |},
     easeOutCubic (Rmin ((time - startTime tr) / duration tr) 1)).
Proof.
  intros Hp. unfold advance.
  apply ltb_true in Hp. now rewrite Hp.
Qed.

Lemma advance_idle time tr :
  1 <= progress tr -> advance time tr = (tr, progress tr).
Proof.
  intros Hp. unfold advance.
  apply ltb_false in Hp. now rewrite Hp.
Qed.

(** The local [t] of a frame is the progress the frame leaves in the ref. *)
Lemma advance_t time tr : snd (advance time tr) = progress (fst (advance time tr)).
Proof. unfold advance. destruct (progress tr <? 1); reflexivity. Qed.

(** Without a lower bound on the time fraction, [min] is the clamp only
    from the start of the transition on. *)
Lemma clamp_min v : 0 <= v -> Spec.clamp v 0 1 = Rmin v 1.
Proof.
  intros Hv. unfold Spec.clamp. apply Rmax_right.
  apply Rmin_glb; lra.
Qed.

Lemma easeOutCubic_le_1 v : v <= 1 -> easeOutCubic v <= 1.
Proof.
  intros Hv. unfold easeOutCubic.
  assert (0 <= (1 - v) ^ 3) by (apply pow_le; lra). lra.
Qed.

Lemma easeOutCubic_1 : easeOutCubic 1 = 1.
Proof. unfold easeOutCubic. simpl. ring. Qed.

Variable mode : AppMode.t.
Variable limit : R.
Variable activeFilters : list SpectralType.t.
Variable currentObserver : ObserverState.
Variable tr : TransitionState.
Variables t time centerX centerY scaleFactor : R.

(** What holds of a star that reaches the draw call. *)
Lemma body_drawn star cmd :
  body mode limit activeFilters currentObserver tr t time
       centerX centerY scaleFactor star = Drawn cmd ->
  includes activeFilters (spectralType star) = true
  /\ apparentMagnitude star <= limit
  /\ horizonCull mode currentObserver tr star = false
  /\ 0 < finalAlpha mode limit currentObserver tr t star
  /\ arcX cmd = currentX currentObserver tr t time centerX scaleFactor star
  /\ arcY cmd = currentY currentObserver tr t time centerY scaleFactor star
  /\ globalAlpha cmd = finalAlpha mode limit currentObserver tr t star.
Proof.
  unfold body.
  destruct (includes activeFilters (spectralType star)); simpl; [| discriminate].
  destruct (apparentMagnitude star >? limit) eqn:Hm; [discriminate |].
  destruct (horizonCull mode currentObserver tr star); [discriminate |].
  destruct (finalAlpha mode limit currentObserver tr t star <=? 0) eqn:Ha;
    [discriminate |].
  intros H. injection H as <-. simpl. js_cmp. repeat split; assumption.
Qed.

End Easing.

Section EasedFrame.
Import Visualizer.
Variable p : Props.
Variable canvas : Canvas.
Variable refs : Refs.
Variable time : R.

Local Abbreviation frame := (render p canvas refs time).
Local Abbreviation before := (transitionRef refs).
Local Abbreviation scale :=
  (Rmin (clientWidth canvas) (clientHeight canvas) * 0.4).
Local Abbreviation sourcePos :=
  (fun star => getScreenPos (observerRef refs) time scale star (sourceMode before)).
Local Abbreviation targetPos :=
  (fun star => getScreenPos (observerRef refs) time scale star (targetMode before)).

(** While a transition is in progress the frame stores the ease-out
    cubic of [min ((now - startTime) / 1500, 1)], which is the clamped
    fraction whenever the frame is not earlier than [startTime]; every star
    drawn sits at the linear blend of its source and target positions with
    the stored progress as parameter. *)
Theorem frame_easing_and_blend :
  progress before < 1 ->
  duration before = 1500 ->
  progress (transitionRef' frame)
  = easeOutCubic (Rmin ((time - startTime before) / 1500) 1)
  /\ (startTime before <= time ->
      progress (transitionRef' frame)
      = easeOutCubic (Spec.clamp ((time - startTime before) / 1500) 0 1))
  /\ (forall cmd, In cmd (draws frame) ->
      exists star,
        In star (stars p)
        /\ arcX cmd - clientWidth canvas / 2
           = x (sourcePos star)
             + (x (targetPos star) - x (sourcePos star))
               * progress (transitionRef' frame)
        /\ arcY cmd - clientHeight canvas / 2
           = y (sourcePos star)
             + (y (targetPos star) - y (sourcePos star))
               * progress (transitionRef' frame)).
Proof.
  intros Hp Hd.
  rewrite render_transitionRef, (advance_running _ _ Hp), Hd. simpl.
  split; [reflexivity |]. split.
  - intros Hs. rewrite clamp_min; [reflexivity |].
    apply Rle_mult_inv_pos; lra.
  - intros cmd Hin. apply render_draws in Hin.
    destruct Hin as [star [Hstar Hbody]]. exists star. split; [assumption |].
    unfold frameBody in Hbody.
    rewrite (advance_running _ _ Hp), Hd in Hbody.
    apply body_drawn in Hbody.
    destruct Hbody as [_ [_ [_ [_ [Hx [Hy _]]]]]].
    rewrite Hx, Hy. unfold currentX, currentY. simpl. split; ring.
Qed.

End EasedFrame.

(** ** Sample frames *)

Lemma limit_of_App :
  Visualizer.effectiveLimit App.observationalPower App.observer = 3.6.
Proof. apply effectiveLimit_naked_eye. reflexivity. Qed.

(** A Galaxy frame over one star of magnitude 2, neither leaving nor
    entering Sky, draws the star with alpha 1 and reports one visible
    star. *)
Lemma galaxy_frame_draws tr time :
  Visualizer.sourceMode tr <> AppMode.SKY ->
  Visualizer.targetMode tr <> AppMode.SKY ->
  exists cmd,
    Visualizer.draws
      (Visualizer.render
         (Sample.props AppMode.GALAXY [Sample.star SpectralType.G 0 2])
         Sample.canvas (Sample.refs tr App.observer) time) = [cmd]
    /\ Visualizer.globalAlpha cmd = 1
    /\ Visualizer.setStatsArg
         (Visualizer.render
            (Sample.props AppMode.GALAXY [Sample.star SpectralType.G 0 2])
            Sample.canvas (Sample.refs tr App.observer) time) = 1%nat.
Proof.
  intros Hsource Htarget.
  pose proof (render_forEach
                (Sample.props AppMode.GALAXY [Sample.star SpectralType.G 0 2])
                Sample.canvas (Sample.refs tr App.observer) time) as H.
  set (frame := Visualizer.render _ _ _ _) in *.
  unfold Visualizer.frameBody in H.
  cbn [fold_left Sample.props Visualizer.stars
       Sample.refs Visualizer.transitionRef Visualizer.observerRef
       Visualizer.mode Visualizer.observationalPower Visualizer.observer
       Visualizer.activeFilters] in H.
  destruct (advance_frame time tr) as [Hs [Ht _]].
  destruct (Visualizer.advance time tr) as [after t]. cbn [fst] in Hs, Ht.
  rewrite <- Hs in Hsource. rewrite <- Ht in Htarget.
  apply mode_eqb_neq in Hsource, Htarget.
  rewrite limit_of_App in H.
  set (star := Sample.star SpectralType.G 0 2) in H.
  assert (Hin : includes App.activeFilters (spectralType star) = true)
    by reflexivity.
  assert (Hm : apparentMagnitude star = 2) by reflexivity.
  assert (Hc : Visualizer.horizonCull AppMode.GALAXY App.observer after star = false).
  { unfold Visualizer.horizonCull. cbn [Visualizer.skyMode AppMode.eqb orb].
    now rewrite andb_false_r. }
  assert (Ha : Visualizer.finalAlpha AppMode.GALAXY 3.6 App.observer after t star = 1).
  { unfold Visualizer.finalAlpha, Visualizer.magnitudeAlpha,
      Visualizer.extinctionFactor, Visualizer.horizonFade.
    rewrite Hm, Hsource, Htarget.
    cbn [Visualizer.skyMode AppMode.eqb orb].
    replace (2 >? 3.6 - 1) with false by (symmetry; apply gtb_false; lra).
    rewrite andb_false_r. lra. }
  unfold Visualizer.body in H. rewrite Hin, Hm, Hc, Ha in H.
  replace (2 >? 3.6) with false in H by (symmetry; apply gtb_false; lra).
  replace (1 <=? 0) with false in H by (symmetry; apply leb_false; lra).
  cbn [negb fst snd app] in H.
  injection H as Hn Hd.
  eexists. split; [exact Hd |]. split; [reflexivity | exact Hn].
Qed.

Lemma frame_easing_and_blend_witness :
  Visualizer.progress (Sample.leaving AppMode.HR_DIAGRAM AppMode.GALAXY 1000) < 1
  /\ Visualizer.duration (Sample.leaving AppMode.HR_DIAGRAM AppMode.GALAXY 1000)
     = 1500
  /\ Visualizer.progress
       (Visualizer.transitionRef'
          (Visualizer.render
             (Sample.props AppMode.GALAXY [Sample.star SpectralType.G 0 2])
             Sample.canvas
             (Sample.refs (Sample.leaving AppMode.HR_DIAGRAM AppMode.GALAXY 1000)
                App.observer) 1750))
     = Visualizer.easeOutCubic (Rmin ((1750 - 1000) / 1500) 1)
  /\ exists cmd,
       In cmd
          (Visualizer.draws
             (Visualizer.render
                (Sample.props AppMode.GALAXY [Sample.star SpectralType.G 0 2])
                Sample.canvas
                (Sample.refs (Sample.leaving AppMode.HR_DIAGRAM AppMode.GALAXY 1000)
                   App.observer) 1750))
       /\ exists star,
            In star [Sample.star SpectralType.G 0 2]
            /\ Visualizer.arcX cmd - 800 / 2
               = Visualizer.x
                   (Visualizer.getScreenPos App.observer 1750 (Rmin 800 600 * 0.4)
                      star AppMode.HR_DIAGRAM)
                 + (Visualizer.x
                      (Visualizer.getScreenPos App.observer 1750 (Rmin 800 600 * 0.4)
                         star AppMode.GALAXY)
                    - Visualizer.x
                        (Visualizer.getScreenPos App.observer 1750
                           (Rmin 800 600 * 0.4) star AppMode.HR_DIAGRAM))
                   * Visualizer.progress
                       (Visualizer.transitionRef'
                          (Visualizer.render
                             (Sample.props AppMode.GALAXY
                                [Sample.star SpectralType.G 0 2])
                             Sample.canvas
                             (Sample.refs
                                (Sample.leaving AppMode.HR_DIAGRAM AppMode.GALAXY 1000)
                                App.observer) 1750)).
Proof.
  assert (Hp : Visualizer.progress
                 (Sample.leaving AppMode.HR_DIAGRAM AppMode.GALAXY 1000) < 1)
    by (simpl; lra).
  assert (Hd : Visualizer.duration
                 (Sample.leaving AppMode.HR_DIAGRAM AppMode.GALAXY 1000) = 1500)
    by reflexivity.
  destruct (frame_easing_and_blend
              (Sample.props AppMode.GALAXY [Sample.star SpectralType.G 0 2])
              Sample.canvas
              (Sample.refs (Sample.leaving AppMode.HR_DIAGRAM AppMode.GALAXY 1000)
                 App.observer) 1750 Hp Hd) as [Hease [_ Hblend]].
  split; [exact Hp |]. split; [exact Hd |]. split; [exact Hease |].
  destruct (galaxy_frame_draws
              (Sample.leaving AppMode.HR_DIAGRAM AppMode.GALAXY 1000) 1750)
    as [cmd [Hdraws _]]; [discriminate | discriminate |].
  exists cmd.
  assert (Hin : In cmd
                  (Visualizer.draws
                     (Visualizer.render
                        (Sample.props AppMode.GALAXY [Sample.star SpectralType.G 0 2])
                        Sample.canvas
                        (Sample.refs
                           (Sample.leaving AppMode.HR_DIAGRAM AppMode.GALAXY 1000)
                           App.observer) 1750)))
    by (rewrite Hdraws; now left).
  split; [exact Hin |].
  destruct (Hblend cmd Hin) as [star [Hstar [Hx _]]].
  exists star. split; [exact Hstar | exact Hx].
Defined.

(** Half way through the 1500 ms the stored progress is 0.875. *)
Lemma progress_half_way_to source target :
  source <> target ->
  Visualizer.progress
    (fst (Visualizer.advance 1750 (Sample.leaving source target 1000)))
  = 0.875.
Proof.
  intros Hne. unfold Sample.leaving.
  rewrite modeEffect_new by (simpl; congruence).
  rewrite advance_running by (simpl; lra). simpl.
  rewrite Rmin_left by lra. unfold Visualizer.easeOutCubic. simpl. lra.
Qed.

Lemma render_horizon p canvas refs time :
  Visualizer.horizon (Visualizer.render p canvas refs time)
  = Visualizer.horizonOpacity (Visualizer.mode p)
      (fst (Visualizer.advance time (Visualizer.transitionRef refs)))
      (snd (Visualizer.advance time (Visualizer.transitionRef refs))).
Proof.
  unfold Visualizer.render. simpl.
  destruct (Visualizer.advance time (Visualizer.transitionRef refs)) as [tr t].
  destruct (Visualizer.forEach _ _ _ _ _ _ _ _ _ _ _) as [n cmds]. reflexivity.
Qed.

(** C7, where the code departs from it: the time fraction is clamped
    above only.  A transition from Sky to Galaxy is requested at
    [startTime = 1003] and the next frame carries the timestamp 1000: the
    transition is in progress, the clamped fraction of the claim is 0 and
    its ease 0, but the frame stores the ease of -0.002, the negative
    progress -0.006012008, and fades the horizon ring with an opacity
    above 1. *)
Theorem progress_is_not_clamped_below :
  Visualizer.progress (Sample.leaving AppMode.SKY AppMode.GALAXY 1003) < 1
  /\ Visualizer.easeOutCubic (Spec.clamp ((1000 - 1003) / 1500) 0 1) = 0
  /\ Visualizer.progress
       (Visualizer.transitionRef'
          (Visualizer.render (Sample.props AppMode.GALAXY []) Sample.canvas
             (Sample.refs (Sample.leaving AppMode.SKY AppMode.GALAXY 1003)
                App.observer) 1000))
     = -0.006012008
  /\ Visualizer.progress
       (Visualizer.transitionRef'
          (Visualizer.render (Sample.props AppMode.GALAXY []) Sample.canvas
             (Sample.refs (Sample.leaving AppMode.SKY AppMode.GALAXY 1003)
                App.observer) 1000))
     <> Visualizer.easeOutCubic (Spec.clamp ((1000 - 1003) / 1500) 0 1)
  /\ Visualizer.horizon
       (Visualizer.render (Sample.props AppMode.GALAXY []) Sample.canvas
          (Sample.refs (Sample.leaving AppMode.SKY AppMode.GALAXY 1003)
             App.observer) 1000)
     = Some 1.006012008.
Proof.
  assert (Hclamp : Visualizer.easeOutCubic (Spec.clamp ((1000 - 1003) / 1500) 0 1) = 0).
  { unfold Spec.clamp. rewrite Rmax_left by (rewrite Rmin_left; lra).
    unfold Visualizer.easeOutCubic. simpl. lra. }
  assert (Hadv : Visualizer.advance 1000
                   (Sample.leaving AppMode.SKY AppMode.GALAXY 1003)
                 = ({| Visualizer.progress := -0.006012008;
                       Visualizer.sourceMode := AppMode.SKY;
                       Visualizer.targetMode := AppMode.GALAXY;
                       Visualizer.startTime := 1003;
                       Visualizer.duration := 1500 |}, -0.006012008)).
  { rewrite advance_running by (simpl; lra). simpl.
    rewrite Rmin_left by lra.
    replace (Visualizer.easeOutCubic ((1000 - 1003) / 1500)) with (-0.006012008)
      by (unfold Visualizer.easeOutCubic; simpl; lra).
    reflexivity. }
  split; [simpl; lra |]. split; [exact Hclamp |].
  rewrite render_transitionRef, render_horizon.
  cbn [Sample.refs Visualizer.transitionRef Sample.props Visualizer.mode].
  rewrite Hadv. cbn [fst snd Visualizer.progress].
  split; [reflexivity |]. split; [rewrite Hclamp; lra |].
  unfold Visualizer.horizonOpacity. simpl. f_equal. lra.
Qed.

(** ** Exclusion and culling *)

Section Exclusion.
Import Visualizer.
Variable viewMode : AppMode.t.
Variable power : R.
Variable filters : list SpectralType.t.
Variable settings : ObserverState.
Variable canvas : Canvas.
Variable refs : Refs.
Variable time : R.

(** The properties of a frame over a given catalogue. *)
Local Abbreviation over catalogue :=
  {| stars := catalogue; mode := viewMode;
     observationalPower := power;
     activeFilters := filters; observer := settings |}.
Local Abbreviation limit := (effectiveLimit power settings).
Local Abbreviation now := (advance time (transitionRef refs)).
Local Abbreviation callback := (frameBody (over []) canvas refs time).
Local Abbreviation alphaOf :=
  (finalAlpha viewMode limit (observerRef refs) (fst now) (snd now)).
Local Abbreviation altitude := (altDeg (observerRef refs)).

Lemma frameBody_catalogue catalogue :
  frameBody (over catalogue) canvas refs time = callback.
Proof. reflexivity. Qed.

Lemma callback_body :
  callback
  = body viewMode limit filters (observerRef refs) (fst now) (snd now) time
         (clientWidth canvas / 2) (clientHeight canvas / 2)
         (Rmin (clientWidth canvas) (clientHeight canvas) * 0.4).
Proof. unfold frameBody. simpl. now destruct now. Qed.

(** A frame over a catalogue is the frame over the catalogue without a
    star whose callback returns early. *)
Lemma render_skips pre star post :
  (forall cmd, callback star <> Drawn cmd) ->
  render (over (pre ++ star :: post)) canvas refs time
  = render (over (pre ++ post)) canvas refs time.
Proof.
  intros Hskip. rewrite callback_body in Hskip.
  unfold render. simpl.
  destruct now as [tr t]. simpl in Hskip.
  unfold forEach, visit.
  now rewrite (traversal_skips _ pre star post (0%nat, []) Hskip).
Qed.

Lemma callback_filtered star :
  ~ In (spectralType star) filters \/ apparentMagnitude star > limit ->
  callback star = Filtered.
Proof.
  intros H. rewrite callback_body. unfold body.
  destruct (includes filters (spectralType star)) eqn:Hin; simpl;
    [| reflexivity].
  destruct H as [Hnot | Hmag].
  - apply includes_In in Hin. contradiction.
  - apply gtb_true in Hmag. now rewrite Hmag.
Qed.

Lemma callback_needs_alpha star cmd :
  callback star = Drawn cmd -> 0 < alphaOf star /\ globalAlpha cmd = alphaOf star.
Proof.
  rewrite callback_body. intros H. apply body_drawn in H. tauto.
Qed.

(** C4: a star of an inactive spectral type, or fainter than the effective
    limit, leaves the callback at the filter, before any projection, and a
    star whose final alpha is not positive never reaches the draw; either
    way the frame (draw calls and reported count included) is the one of
    the catalogue without that star. *)
Theorem excluded_stars_leave_no_trace pre star post :
  (~ In (spectralType star) filters \/ apparentMagnitude star > limit ->
   callback star = Filtered
   /\ render (over (pre ++ star :: post)) canvas refs time
      = render (over (pre ++ post)) canvas refs time)
  /\ (alphaOf star <= 0 ->
      (forall cmd, callback star <> Drawn cmd)
      /\ render (over (pre ++ star :: post)) canvas refs time
         = render (over (pre ++ post)) canvas refs time).
Proof.
  split.
  - intros H. pose proof (callback_filtered star H) as Hf.
    split; [assumption |].
    apply render_skips. intros cmd. rewrite Hf. discriminate.
  - intros Ha.
    assert (Hskip : forall cmd, callback star <> Drawn cmd).
    { intros cmd Hd. apply callback_needs_alpha in Hd. lra. }
    split; [assumption | now apply render_skips].
Qed.

Lemma callback_culled star :
  1 <= progress (fst now) ->
  skyMode viewMode = true ->
  altitude star < -5 ->
  callback star = Filtered \/ callback star = Culled.
Proof.
  intros Hp Hm Ha. rewrite callback_body. unfold body.
  destruct (negb _); [now left |].
  destruct (_ >? _); [now left |].
  unfold horizonCull. rewrite Hm.
  apply geb_true in Hp. apply ltb_true in Ha. rewrite Hp, Ha. now right.
Qed.

Lemma callback_not_culled star :
  progress (fst now) < 1 -> callback star <> Culled.
Proof.
  intros Hp. rewrite callback_body. unfold body.
  destruct (negb _); [discriminate |].
  destruct (_ >? _); [discriminate |].
  unfold horizonCull. apply geb_false in Hp. rewrite Hp. simpl.
  destruct (_ <=? 0); discriminate.
Qed.

(** C8: on a frame that leaves [progress] at 1 in Sky or Classification
    mode, a star whose altitude is below -5 degrees returns from the
    callback at the filter or at the cull, and the frame is the one of the
    catalogue without it; on a frame that leaves [progress] below 1 no
    star returns at the cull. *)
Theorem horizon_cull_only_when_stable pre star post :
  (progress (transitionRef' (render (over (pre ++ star :: post)) canvas refs time)) = 1 ->
   viewMode = AppMode.SKY \/ viewMode = AppMode.CLASSIFICATION ->
   altitude star < -5 ->
   (callback star = Filtered \/ callback star = Culled)
   /\ render (over (pre ++ star :: post)) canvas refs time
      = render (over (pre ++ post)) canvas refs time)
  /\ (progress (transitionRef' (render (over (pre ++ star :: post)) canvas refs time)) < 1 ->
      horizonCull viewMode (observerRef refs) (fst now) star = false
      /\ forall s, callback s <> Culled).
Proof.
  rewrite render_transitionRef. split.
  - intros Hp Hm Ha. apply skyMode_true in Hm.
    assert (Hc : callback star = Filtered \/ callback star = Culled)
      by (apply callback_culled; [lra | assumption | assumption]).
    split; [assumption |].
    apply render_skips. intros cmd. destruct Hc as [-> | ->]; discriminate.
  - intros Hp. split.
    + unfold horizonCull. apply geb_false in Hp. now rewrite Hp.
    + intros s. now apply callback_not_culled.
Qed.

End Exclusion.

(** ** Altitudes of the sample stars *)

Lemma sinAlt_equator ty ra0 m :
  Visualizer.sinAlt Sample.equator (Sample.star ty ra0 m)
  = cos (ra0 * Visualizer.deg2rad).
Proof.
  unfold Visualizer.sinAlt. simpl.
  rewrite !Rmult_0_l, sin_0, cos_0.
  replace (0 - ra0 * Visualizer.deg2rad) with (- (ra0 * Visualizer.deg2rad)) by ring.
  rewrite cos_neg. ring.
Qed.

(** At right ascension 90 the sample star is on the horizon. *)
Lemma altDeg_on_horizon ty m :
  Visualizer.altDeg Sample.equator (Sample.star ty 90 m) = 0.
Proof.
  unfold Visualizer.altDeg. rewrite sinAlt_equator.
  replace (90 * Visualizer.deg2rad) with (PI / 2)
    by (unfold Visualizer.deg2rad; field).
  rewrite cos_PI2, asin_0. ring.
Qed.

(** At right ascension 180 it is at the nadir. *)
Lemma altDeg_at_nadir ty m :
  Visualizer.altDeg Sample.equator (Sample.star ty 180 m) = -90.
Proof.
  unfold Visualizer.altDeg. rewrite sinAlt_equator.
  replace (180 * Visualizer.deg2rad) with PI
    by (unfold Visualizer.deg2rad; field).
  rewrite cos_PI.
  replace (asin (-1)) with (- asin 1) by (rewrite <- asin_opp; f_equal; ring).
  rewrite asin_1. field. apply PI_neq0.
Qed.

Lemma excluded_stars_leave_no_trace_witness :
  (apparentMagnitude (Sample.star SpectralType.G 0 6)
   > Visualizer.effectiveLimit App.observationalPower App.observer
   /\ Visualizer.render
        (Sample.props AppMode.SKY
           ([Sample.star SpectralType.G 0 2] ++ Sample.star SpectralType.G 0 6 :: []))
        Sample.canvas
        (Sample.refs (Visualizer.initialTransition AppMode.SKY) App.observer) 1016
      = Visualizer.render
          (Sample.props AppMode.SKY ([Sample.star SpectralType.G 0 2] ++ []))
          Sample.canvas
          (Sample.refs (Visualizer.initialTransition AppMode.SKY) App.observer) 1016)
  /\ (Visualizer.finalAlpha AppMode.SKY
        (Visualizer.effectiveLimit App.observationalPower App.observer)
        App.observer
        (fst (Visualizer.advance 1016 (Visualizer.initialTransition AppMode.SKY)))
        (snd (Visualizer.advance 1016 (Visualizer.initialTransition AppMode.SKY)))
        (Sample.star SpectralType.G 0 3.6) <= 0
      /\ Visualizer.render
           (Sample.props AppMode.SKY
              ([Sample.star SpectralType.G 0 2] ++ Sample.star SpectralType.G 0 3.6 :: []))
           Sample.canvas
           (Sample.refs (Visualizer.initialTransition AppMode.SKY) App.observer) 1016
         = Visualizer.render
             (Sample.props AppMode.SKY ([Sample.star SpectralType.G 0 2] ++ []))
             Sample.canvas
             (Sample.refs (Visualizer.initialTransition AppMode.SKY) App.observer) 1016).
Proof.
  assert (Hfaint : apparentMagnitude (Sample.star SpectralType.G 0 6)
                   > Visualizer.effectiveLimit App.observationalPower App.observer)
    by (rewrite limit_of_App; simpl; lra).
  assert (Hzero : Visualizer.finalAlpha AppMode.SKY
        (Visualizer.effectiveLimit App.observationalPower App.observer)
        App.observer
        (fst (Visualizer.advance 1016 (Visualizer.initialTransition AppMode.SKY)))
        (snd (Visualizer.advance 1016 (Visualizer.initialTransition AppMode.SKY)))
        (Sample.star SpectralType.G 0 3.6) <= 0).
  { unfold Visualizer.finalAlpha, Visualizer.magnitudeAlpha.
    rewrite limit_of_App. simpl apparentMagnitude. js_eval.
    replace (3.6 - 3.6) with 0 by lra. rewrite !Rmult_0_l. lra. }
  split.
  - split; [exact Hfaint |].
    exact (proj2 (proj1 (excluded_stars_leave_no_trace AppMode.SKY
                           App.observationalPower App.activeFilters App.observer
                           Sample.canvas
                           (Sample.refs (Visualizer.initialTransition AppMode.SKY)
                              App.observer)
                           1016 [Sample.star SpectralType.G 0 2]
                           (Sample.star SpectralType.G 0 6) [])
                        (or_intror Hfaint))).
  - split; [exact Hzero |].
    exact (proj2 (proj2 (excluded_stars_leave_no_trace AppMode.SKY
                           App.observationalPower App.activeFilters App.observer
                           Sample.canvas
                           (Sample.refs (Visualizer.initialTransition AppMode.SKY)
                              App.observer)
                           1016 [Sample.star SpectralType.G 0 2]
                           (Sample.star SpectralType.G 0 3.6) [])
                        Hzero)).
Defined.

Lemma horizon_cull_only_when_stable_witness :
  (Visualizer.progress
     (Visualizer.transitionRef'
        (Visualizer.render
           (Sample.props AppMode.SKY ([] ++ Sample.star SpectralType.G 180 2 :: []))
           Sample.canvas
           (Sample.refs (Visualizer.initialTransition AppMode.SKY) Sample.equator)
           1016)) = 1
   /\ Visualizer.altDeg Sample.equator (Sample.star SpectralType.G 180 2) < -5
   /\ Visualizer.render
        (Sample.props AppMode.SKY ([] ++ Sample.star SpectralType.G 180 2 :: []))
        Sample.canvas
        (Sample.refs (Visualizer.initialTransition AppMode.SKY) Sample.equator) 1016
      = Visualizer.render (Sample.props AppMode.SKY ([] ++ []))
          Sample.canvas
          (Sample.refs (Visualizer.initialTransition AppMode.SKY) Sample.equator) 1016)
  /\ (Visualizer.progress
        (Visualizer.transitionRef'
           (Visualizer.render
              (Sample.props AppMode.CLASSIFICATION
                 ([] ++ Sample.star SpectralType.G 180 2 :: []))
              Sample.canvas
              (Sample.refs (Sample.leaving AppMode.SKY AppMode.CLASSIFICATION 1000)
                 Sample.equator)
              1750)) < 1
      /\ Visualizer.horizonCull AppMode.CLASSIFICATION Sample.equator
           (fst (Visualizer.advance 1750
                   (Sample.leaving AppMode.SKY AppMode.CLASSIFICATION 1000)))
           (Sample.star SpectralType.G 180 2) = false).
Proof.
  assert (Hstable :
    Visualizer.progress
      (Visualizer.transitionRef'
         (Visualizer.render
            (Sample.props AppMode.SKY ([] ++ Sample.star SpectralType.G 180 2 :: []))
            Sample.canvas
            (Sample.refs (Visualizer.initialTransition AppMode.SKY) Sample.equator)
            1016)) = 1).
  { rewrite render_transitionRef, advance_idle; simpl; [reflexivity | lra]. }
  assert (Hlow : Visualizer.altDeg Sample.equator (Sample.star SpectralType.G 180 2) < -5)
    by (rewrite altDeg_at_nadir; lra).
  assert (Hmoving :
    Visualizer.progress
      (Visualizer.transitionRef'
         (Visualizer.render
            (Sample.props AppMode.CLASSIFICATION
               ([] ++ Sample.star SpectralType.G 180 2 :: []))
            Sample.canvas
            (Sample.refs (Sample.leaving AppMode.SKY AppMode.CLASSIFICATION 1000)
               Sample.equator)
            1750)) < 1).
  { rewrite render_transitionRef. simpl Visualizer.transitionRef.
    rewrite progress_half_way_to by discriminate. lra. }
  split.
  - split; [exact Hstable |]. split; [exact Hlow |].
    exact (proj2 (proj1 (horizon_cull_only_when_stable AppMode.SKY
                           App.observationalPower App.activeFilters App.observer
                           Sample.canvas
                           (Sample.refs (Visualizer.initialTransition AppMode.SKY)
                              Sample.equator)
                           1016 [] (Sample.star SpectralType.G 180 2) [])
                        Hstable (or_introl eq_refl) Hlow)).
  - split; [exact Hmoving |].
    exact (proj1 (proj2 (horizon_cull_only_when_stable AppMode.CLASSIFICATION
                           App.observationalPower App.activeFilters App.observer
                           Sample.canvas
                           (Sample.refs
                              (Sample.leaving AppMode.SKY AppMode.CLASSIFICATION 1000)
                              Sample.equator)
                           1750 [] (Sample.star SpectralType.G 180 2) [])
                        Hmoving)).
Defined.

(** ** The range of alpha *)

Section Alpha.
Import Visualizer.
Variable viewMode : AppMode.t.
Variable limit : R.
Variable current : ObserverState.
Variable tr : TransitionState.
Variable t : R.

Lemma magnitudeAlpha_range star :
  apparentMagnitude star <= limit ->
  0 <= magnitudeAlpha limit star <= 1.
Proof.
  intros Hm. unfold magnitudeAlpha.
  destruct (apparentMagnitude star >? limit - 1) eqn:E; js_cmp; lra.
Qed.

Lemma extinction_max star :
  extinction current star = Rmax 0 ((30 - altDeg current star) / 30).
Proof.
  unfold extinction.
  destruct (altDeg current star <? 30) eqn:E; js_cmp.
  - rewrite Rmax_right; [reflexivity | lra].
  - rewrite Rmax_left; [reflexivity | lra].
Qed.

Lemma extinction_nonneg star : 0 <= extinction current star.
Proof. rewrite extinction_max. apply Rmax_l. Qed.

Lemma extinctionFactor_le_1 star :
  t <= 1 -> extinctionFactor viewMode current tr t star <= 1.
Proof.
  intros Ht. pose proof (extinction_nonneg star) as He.
  unfold extinctionFactor.
  destruct (skyMode viewMode); [lra |].
  destruct (AppMode.eqb (sourceMode tr) AppMode.SKY); [nra | lra].
Qed.

Lemma horizonFade_range star : 0 <= horizonFade viewMode current tr star <= 1.
Proof.
  unfold horizonFade.
  destruct (altDeg current star <? 0) eqn:E; simpl; [| lra].
  destruct (_ || _); [| lra].
  js_cmp. split; [apply Rmax_l |].
  apply Rmax_lub; lra.
Qed.

Lemma finalAlpha_le_1 star :
  apparentMagnitude star <= limit ->
  t <= 1 ->
  finalAlpha viewMode limit current tr t star <= 1.
Proof.
  intros Hm Ht. unfold finalAlpha.
  pose proof (magnitudeAlpha_range star Hm) as Ha.
  pose proof (extinctionFactor_le_1 star Ht) as He.
  pose proof (horizonFade_range star) as Hh.
  assert (Hae : magnitudeAlpha limit star
                * extinctionFactor viewMode current tr t star <= 1) by nra.
  nra.
Qed.

End Alpha.

Section Reachable.
Import Visualizer.

Lemma step_progress_le_1 tr ev : progress tr <= 1 -> progress (step tr ev) <= 1.
Proof.
  intros Hp. destruct ev as [now requested | time]; simpl.
  - unfold modeEffect. destruct (negb _); simpl; lra.
  - unfold advance. destruct (progress tr <? 1); simpl; [| assumption].
    apply easeOutCubic_le_1, Rmin_r.
Qed.

Lemma run_progress_le_1 evs : forall tr,
  progress tr <= 1 -> progress (run evs tr) <= 1.
Proof.
  induction evs as [| ev rest IH]; intros tr Hp; simpl; [assumption |].
  apply IH. now apply step_progress_le_1.
Qed.

(** Whatever the history, the transition state holds a progress of at most
    1 and the duration 1500. *)
Lemma history_invariant mode0 evs :
  progress (run evs (initialTransition mode0)) <= 1
  /\ duration (run evs (initialTransition mode0)) = 1500.
Proof.
  split; [apply run_progress_le_1; simpl; lra |].
  assert (H : forall tr, duration (run evs tr) = duration tr).
  { induction evs as [| ev rest IH]; intros tr; simpl; [reflexivity |].
    rewrite IH. destruct ev as [now requested | time]; simpl.
    - unfold modeEffect. now destruct (negb _).
    - apply advance_frame. }
  now rewrite H.
Qed.

Variable mode0 : AppMode.t.
Variable evs : list Event.
Variable p : Props.
Variable canvas : Canvas.
Variable lastTime : R.
Variable current : ObserverState.
Variable time : R.

Local Abbreviation before := (run evs (initialTransition mode0)).
Local Abbreviation refs :=
  {| lastTimeRef := lastTime; transitionRef := before; observerRef := current |}.
Local Abbreviation limit := (effectiveLimit (observationalPower p) (observer p)).
Local Abbreviation after := (fst (advance time before)).
Local Abbreviation t := (snd (advance time before)).

(** C10: in every frame of every session each draw call carries an alpha
    in (0, 1]: it is the product of a magnitude fade in [0, 1], an
    extinction factor of at most 1 and a horizon fade in [0, 1], and a
    product that is not positive never reaches the draw. *)
Theorem drawn_alpha_in_range :
  Forall
    (fun cmd =>
       0 < globalAlpha cmd <= 1
       /\ exists star,
            In star (stars p)
            /\ apparentMagnitude star <= limit
            /\ globalAlpha cmd
               = magnitudeAlpha limit star
                 * extinctionFactor (mode p) current after t star
                 * horizonFade (mode p) current after star
            /\ 0 <= magnitudeAlpha limit star <= 1
            /\ extinctionFactor (mode p) current after t star <= 1
            /\ 0 <= horizonFade (mode p) current after star <= 1)
    (draws (render p canvas refs time)).
Proof.
  apply Forall_forall. intros cmd Hin.
  apply render_draws in Hin. destruct Hin as [star [Hstar Hbody]].
  unfold frameBody in Hbody. simpl in Hbody.
  assert (Ht : t <= 1).
  { rewrite advance_t. apply (step_progress_le_1 before (Tick time)).
    apply history_invariant. }
  destruct (advance time before) as [tr' t'] eqn:Hadv. simpl in Ht |- *.
  apply body_drawn in Hbody.
  destruct Hbody as [_ [Hm [_ [Hpos [_ [_ Ha]]]]]].
  split.
  - rewrite Ha. split; [assumption | now apply finalAlpha_le_1].
  - exists star. split; [assumption |]. split; [assumption |].
    split; [exact Ha |].
    split; [now apply magnitudeAlpha_range |].
    split; [now apply extinctionFactor_le_1 | apply horizonFade_range].
Qed.

End Reachable.

(** ** Atmospheric extinction *)

Section Extinction.
Import Visualizer.
Variable viewMode : AppMode.t.
Variable current : ObserverState.
Variable tr : TransitionState.
Variable t : R.

Local Abbreviation skyExtinction star :=
  (1 - 0.7 * Rmax 0 ((30 - altDeg current star) / 30)).

(** In Sky and Classification mode the full factor applies. *)
Lemma extinctionFactor_in_sky star :
  viewMode = AppMode.SKY \/ viewMode = AppMode.CLASSIFICATION ->
  extinctionFactor viewMode current tr t star = skyExtinction star.
Proof.
  intros Hm. apply skyMode_true in Hm.
  unfold extinctionFactor. rewrite Hm, extinction_max. ring.
Qed.

(** Leaving Sky for another projection the factor is blended toward 1. *)
Lemma extinctionFactor_leaving_sky star :
  skyMode viewMode = false ->
  sourceMode tr = AppMode.SKY ->
  extinctionFactor viewMode current tr t star
  = skyExtinction star + (1 - skyExtinction star) * t.
Proof.
  intros Hm Hs. unfold extinctionFactor.
  rewrite Hm, Hs, extinction_max. simpl. ring.
Qed.

(** Leaving any other mode, Classification included, there is no factor. *)
Lemma extinctionFactor_leaving_other star :
  skyMode viewMode = false ->
  sourceMode tr <> AppMode.SKY ->
  extinctionFactor viewMode current tr t star = 1.
Proof.
  intros Hm Hs. unfold extinctionFactor.
  apply mode_eqb_neq in Hs. now rewrite Hm, Hs.
Qed.

End Extinction.

(** C3, where the code departs from it: on the first frame of a transition
    from Classification to Galaxy a star on the horizon, dimmed by the
    factor 0.3 in Classification mode, gets the factor 1, whereas the blend
    of the claim, [skyExtinction + (1 - skyExtinction) * progress], is
    still 0.3 at progress 0. *)
Theorem extinction_snaps_leaving_classification :
  Visualizer.extinctionFactor AppMode.CLASSIFICATION Sample.equator
    (Visualizer.initialTransition AppMode.CLASSIFICATION) 1
    (Sample.star SpectralType.G 90 2) = 0.3
  /\ snd (Visualizer.advance 1000
            (Sample.leaving AppMode.CLASSIFICATION AppMode.GALAXY 1000)) = 0
  /\ Visualizer.extinctionFactor AppMode.GALAXY Sample.equator
       (fst (Visualizer.advance 1000
               (Sample.leaving AppMode.CLASSIFICATION AppMode.GALAXY 1000)))
       (snd (Visualizer.advance 1000
               (Sample.leaving AppMode.CLASSIFICATION AppMode.GALAXY 1000)))
       (Sample.star SpectralType.G 90 2) = 1
  /\ (1 - 0.7 * Rmax 0 ((30 - Visualizer.altDeg Sample.equator
                                (Sample.star SpectralType.G 90 2)) / 30))
     + (1 - (1 - 0.7 * Rmax 0 ((30 - Visualizer.altDeg Sample.equator
                                      (Sample.star SpectralType.G 90 2)) / 30)))
       * snd (Visualizer.advance 1000
                (Sample.leaving AppMode.CLASSIFICATION AppMode.GALAXY 1000))
     = 0.3.
Proof.
  assert (Ht : snd (Visualizer.advance 1000
                      (Sample.leaving AppMode.CLASSIFICATION AppMode.GALAXY 1000)) = 0).
  { rewrite advance_running by (simpl; lra). simpl.
    rewrite Rmin_left by lra. unfold Visualizer.easeOutCubic. simpl. lra. }
  assert (Hsky : 1 - 0.7 * Rmax 0 ((30 - Visualizer.altDeg Sample.equator
                                          (Sample.star SpectralType.G 90 2)) / 30)
                 = 0.3).
  { rewrite altDeg_on_horizon. rewrite Rmax_right by lra. lra. }
  split; [| split; [exact Ht | split]].
  - rewrite extinctionFactor_in_sky by (now right). exact Hsky.
  - apply extinctionFactor_leaving_other; [reflexivity |].
    rewrite (proj1 (advance_frame _ _)). simpl. discriminate.
  - rewrite Ht, Hsky. lra.
Qed.

(** Leaving Sky, the same star on the same frame keeps the factor 0.3. *)
Lemma extinction_blends_leaving_sky :
  Visualizer.extinctionFactor AppMode.GALAXY Sample.equator
    (fst (Visualizer.advance 1000 (Sample.leaving AppMode.SKY AppMode.GALAXY 1000)))
    (snd (Visualizer.advance 1000 (Sample.leaving AppMode.SKY AppMode.GALAXY 1000)))
    (Sample.star SpectralType.G 90 2) = 0.3.
Proof.
  rewrite extinctionFactor_leaving_sky;
    [| reflexivity | now rewrite (proj1 (advance_frame _ _))].
  rewrite altDeg_on_horizon. rewrite Rmax_right by lra.
  rewrite advance_running by (simpl; lra). simpl.
  rewrite Rmin_left by lra. unfold Visualizer.easeOutCubic. simpl. lra.
Qed.

(** ** The catalogue generator *)

Section Generator.
Import StarGen.

(** The fields of a generated star that depend on the first three draws
    and on the last one. *)
Lemma genStar_fields i src k :
  spectralType (fst (genStar i src k)) = type (pickType (src k))
  /\ temperature (fst (genStar i src k))
     = src (S k) * (maxTemp (pickType (src k)) - minTemp (pickType (src k)))
       + minTemp (pickType (src k))
  /\ luminosity (fst (genStar i src k))
     = (temperature (fst (genStar i src k)) / 5778) ^ 7
       * (src (S (S k)) * (1.5 - 0.5) + 0.5)
  /\ hrX (fst (genStar i src k))
     = - ((JS.log10 (temperature (fst (genStar i src k))) - 3.3)
          / (4.7 - 3.3) * 2 - 1)
  /\ hrY (fst (genStar i src k))
     = - ((JS.log10 (luminosity (fst (genStar i src k))) - (-4))
          / (6 - (-4)) * 2 - 1)
  /\ distance (fst (genStar i src k))
     = JS.powr 10 (src (8 + k)%nat * (3.8 - 0) + 0)
  /\ apparentMagnitude (fst (genStar i src k))
     = -2.5 * JS.log10 (luminosity (fst (genStar i src k))) + 4.83
       + 5 * (JS.log10 (distance (fst (genStar i src k))) - 1).
Proof.
  cbv beta iota zeta delta
    [genStar bind ret random randomRange gaussianRandom galacticToEquatorial
     fst snd spectralType temperature luminosity hrX hrY distance
     apparentMagnitude Nat.add].
  repeat split.
Qed.

Lemma genStar_draws i src k : snd (genStar i src k) = (9 + k)%nat.
Proof.
  cbv beta iota zeta delta
    [genStar bind ret random randomRange gaussianRandom galacticToEquatorial
     fst snd Nat.add].
  reflexivity.
Qed.

Lemma loop_step count i src k :
  fst (loop (S count) i src k)
  = fst (genStar i src k) :: fst (loop count (S i) src (snd (genStar i src k))).
Proof.
  change (loop (S count) i src k)
    with (bind (genStar i)
            (fun star => bind (loop count (S i)) (fun rest => ret (star :: rest)))
            src k).
  unfold bind, ret.
  destruct (genStar i src k) as [star k']. cbn [fst snd].
  destruct (loop count (S i) src k') as [rest k'']. reflexivity.
Qed.

(** Every star of the loop is the result of one pass of its body. *)
Lemma loop_stars src count : forall i k star,
  In star (fst (loop count i src k)) ->
  exists j k', star = fst (genStar j src k').
Proof.
  induction count as [| count IH]; intros i k star Hin.
  - simpl in Hin. contradiction.
  - rewrite loop_step in Hin. destruct Hin as [<- | Hin].
    + now exists i, k.
    + eapply IH. exact Hin.
Qed.

Lemma insert_In star s sorted : In star (insert s sorted) <-> star = s \/ In star sorted.
Proof.
  induction sorted as [| h rest IH]; simpl.
  - intuition.
  - destruct (apparentMagnitude s <=? apparentMagnitude h); simpl.
    + intuition.
    + rewrite IH. intuition.
Qed.

(** Sorting keeps the stars. *)
Lemma sort_In star l : In star (sort l) <-> In star l.
Proof.
  induction l as [| s rest IH]; simpl; [reflexivity |].
  rewrite insert_In, IH. intuition.
Qed.

Lemma generate_In src count star :
  In star (fst (generate count src 0%nat))
  <-> In star (fst (loop count 0 src 0%nat)).
Proof.
  unfold generate, bind, ret.
  destruct (loop count 0 src 0%nat) as [stars k]. simpl. apply sort_In.
Qed.

Lemma generate_first src n :
  In (fst (genStar 0 src 0%nat)) (fst (generate (S n) src 0%nat)).
Proof. apply generate_In. rewrite loop_step. now left. Qed.

Lemma TOTAL_STARS_positive : exists n, TOTAL_STARS = S n.
Proof. exists (Nat.pred TOTAL_STARS). reflexivity. Qed.

(** The first star generated is in the catalogue. *)
Lemma catalogue_first src : In (fst (genStar 0 src 0%nat)) (catalogue src).
Proof.
  unfold catalogue, generateStars.
  destruct TOTAL_STARS_positive as [n ->]. apply generate_first.
Qed.

Lemma catalogue_stars src star :
  In star (catalogue src) -> exists j k, star = fst (genStar j src k).
Proof.
  unfold catalogue, generateStars. generalize TOTAL_STARS. intros n H.
  apply generate_In in H. eapply loop_stars. exact H.
Qed.

End Generator.

(** ** Hertzsprung-Russell coordinates *)

Section Diagram.
Import StarGen.

Lemma ln_10_pos : 0 < ln 10.
Proof. rewrite <- ln_1. apply ln_increasing; lra. Qed.

(** [log10] against a power of ten. *)
Lemma log10_gt (n : nat) v : 10 ^ n < v -> INR n < JS.log10 v.
Proof.
  intros Hv. unfold JS.log10.
  assert (Hp : 0 < 10 ^ n) by (apply pow_lt; lra).
  apply Rmult_lt_reg_r with (ln 10); [apply ln_10_pos |].
  replace (ln v / ln 10 * ln 10) with (ln v)
    by (field; apply Rgt_not_eq, ln_10_pos).
  rewrite <- ln_pow by lra.
  apply ln_increasing; assumption.
Qed.

Lemma hotSource_range k : 0 <= Sample.hotSource k < 1.
Proof. destruct k; simpl; lra. Qed.

Lemma pickType_0 : pickType 0 = mkTypeData SpectralType.O 0.00003 30000 50000.
Proof.
  unfold pickType, SPECTRAL_WEIGHTS. cbn [walk weight].
  replace (0 <? 0.00003) with true by (symmetry; apply ltb_true; lra).
  reflexivity.
Qed.

Lemma hot_star_fields :
  spectralType (fst (genStar 0 Sample.hotSource 0%nat)) = SpectralType.O
  /\ temperature (fst (genStar 0 Sample.hotSource 0%nat)) = 49800
  /\ luminosity (fst (genStar 0 Sample.hotSource 0%nat))
     = (49800 / 5778) ^ 7 * 1.49.
Proof.
  destruct (genStar_fields 0 Sample.hotSource 0%nat) as [Hty [Ht [Hl _]]].
  cbn [Sample.hotSource] in Hty, Ht, Hl. rewrite pickType_0 in Hty, Ht.
  cbn [type maxTemp minTemp] in Hty, Ht.
  assert (Ht' : temperature (fst (genStar 0 Sample.hotSource 0%nat)) = 49800)
    by (rewrite Ht; lra).
  split; [exact Hty |]. split; [exact Ht' |].
  rewrite Hl, Ht'. f_equal. lra.
Qed.

Lemma hot_star_luminosity : 10 ^ 6 < (49800 / 5778) ^ 7 * 1.49.
Proof.
  assert (H : 8.6 < 49800 / 5778) by lra.
  assert (H7 : 8.6 ^ 7 <= (49800 / 5778) ^ 7) by (apply pow_incr; lra).
  assert (H6 : 10 ^ 6 < 8.6 ^ 7 * 1.49) by (simpl; lra).
  lra.
Qed.

End Diagram.

Section DiagramBounds.
Import StarGen.

Lemma ln_le_compat a b : 0 < a -> a <= b -> ln a <= ln b.
Proof.
  intros Ha [Hlt | ->]; [| lra].
  left. now apply ln_increasing.
Qed.

Lemma log10_times_ln v : 0 < v -> JS.log10 v * ln 10 = ln v.
Proof.
  intros _. unfold JS.log10. field. apply Rgt_not_eq, ln_10_pos.
Qed.

Lemma log10_lower v : 2400 <= v -> 3.3 <= JS.log10 v.
Proof.
  intros Hv.
  assert (H : ln (10 ^ 33) <= ln (v ^ 10)).
  { apply ln_le_compat; [apply pow_lt; lra |].
    apply Rle_trans with (2400 ^ 10); [simpl; lra | apply pow_incr; lra]. }
  rewrite !ln_pow in H by lra.
  replace (INR 33) with 33 in H by (simpl; lra).
  replace (INR 10) with 10 in H by (simpl; lra).
  apply Rmult_le_reg_r with (ln 10); [apply ln_10_pos |].
  rewrite log10_times_ln by lra. lra.
Qed.

Lemma log10_upper v : 0 < v -> v <= 50000 -> JS.log10 v <= 4.7.
Proof.
  intros Hpos Hv.
  assert (H : ln (v ^ 10) <= ln (10 ^ 47)).
  { apply ln_le_compat; [apply pow_lt; lra |].
    apply Rle_trans with (50000 ^ 10); [apply pow_incr; lra | simpl; lra]. }
  rewrite !ln_pow in H by lra.
  replace (INR 47) with 47 in H by (simpl; lra).
  replace (INR 10) with 10 in H by (simpl; lra).
  apply Rmult_le_reg_r with (ln 10); [apply ln_10_pos |].
  rewrite log10_times_ln by lra. lra.
Qed.

Lemma log10_above_minus_4 v : 0 < v -> 1 <= v * 10 ^ 4 -> -4 <= JS.log10 v.
Proof.
  intros Hpos Hv.
  assert (H : ln 1 <= ln (v * 10 ^ 4)) by (apply ln_le_compat; lra).
  rewrite ln_1, ln_mult, ln_pow in H by (try apply pow_lt; lra).
  replace (INR 4) with 4 in H by (simpl; lra).
  apply Rmult_le_reg_r with (ln 10); [apply ln_10_pos |].
  rewrite log10_times_ln by lra. lra.
Qed.

Lemma walk_result table : forall rand typeData,
  In (walk rand table typeData) table \/ walk rand table typeData = typeData.
Proof.
  induction table as [| w rest IH]; intros rand typeData; simpl.
  - now right.
  - destruct (rand <? weight w); [now left; left |].
    destruct (IH (rand - weight w) typeData) as [Hin | Heq];
      [left; now right | now right].
Qed.

Lemma pickType_temperatures rand :
  2400 <= minTemp (pickType rand)
  /\ minTemp (pickType rand) <= maxTemp (pickType rand)
  /\ maxTemp (pickType rand) <= 50000.
Proof.
  assert (Hin : In (pickType rand) SPECTRAL_WEIGHTS).
  { unfold pickType.
    destruct (walk_result SPECTRAL_WEIGHTS rand
                (nth (List.length SPECTRAL_WEIGHTS - 1) SPECTRAL_WEIGHTS
                     (mkTypeData SpectralType.M 0.7645 2400 3700)))
      as [Hin | ->]; [exact Hin |].
    simpl. tauto. }
  unfold SPECTRAL_WEIGHTS in Hin. simpl in Hin.
  repeat (destruct Hin as [<- | Hin]; [simpl; lra |]).
  contradiction.
Qed.

Variable src : nat -> R.
Hypothesis src_range : forall k, 0 <= src k < 1.

Lemma genStar_temperature i k :
  2400 <= temperature (fst (genStar i src k)) <= 50000.
Proof.
  destruct (genStar_fields i src k) as [_ [-> _]].
  pose proof (pickType_temperatures (src k)) as Ht.
  pose proof (src_range (S k)) as Hr. nra.
Qed.

Lemma genStar_luminosity i k :
  0 < luminosity (fst (genStar i src k))
  /\ 1 <= luminosity (fst (genStar i src k)) * 10 ^ 4.
Proof.
  destruct (genStar_fields i src k) as [_ [_ [-> _]]].
  pose proof (genStar_temperature i k) as Ht.
  pose proof (src_range (S (S k))) as Hr.
  assert (H7 : 0.41 ^ 7 <= (temperature (fst (genStar i src k)) / 5778) ^ 7)
    by (apply pow_incr; lra).
  assert (Hc : 0.0019 <= 0.41 ^ 7) by (simpl; lra).
  split; [apply Rmult_lt_0_compat; lra |].
  assert (Hl : 0.0019 * 0.5
               <= (temperature (fst (genStar i src k)) / 5778) ^ 7
                  * (src (S (S k)) * (1.5 - 0.5) + 0.5))
    by (apply Rmult_le_compat; lra).
  simpl pow at 2. lra.
Qed.

(** What does hold of every generated star for draws in [0, 1): the
    temperature coordinate is within the diagram, the luminosity
    coordinate does not exceed 1, and both logarithms of the magnitude are
    taken of positive numbers. *)
Lemma catalogue_bounds star :
  In star (catalogue src) ->
  -1 <= hrX star <= 1
  /\ hrY star <= 1
  /\ 0 < luminosity star
  /\ 0 < distance star.
Proof.
  intros Hin. apply catalogue_stars in Hin. destruct Hin as [j [k ->]].
  pose proof (genStar_temperature j k) as Ht.
  destruct (genStar_luminosity j k) as [Hl Hl4].
  destruct (genStar_fields j src k) as [_ [_ [_ [Hx [Hy [Hd _]]]]]].
  pose proof (log10_lower _ (proj1 Ht)) as Hlo.
  assert (Hhi : JS.log10 (temperature (fst (genStar j src k))) <= 4.7)
    by (apply log10_upper; lra).
  pose proof (log10_above_minus_4 _ Hl Hl4) as Hm4.
  rewrite Hx, Hy, Hd.
  replace (4.7 - 3.3) with 1.4 by lra.
  replace (6 - -4) with 10 by lra.
  repeat split; try lra.
  unfold JS.powr. apply exp_pos.
Qed.

End DiagramBounds.

(** C2, where the code departs from it: with the draws 0, 0.99, 0.99, ...
    (all in [0, 1)) the first star is of type O at 49800 K, its luminosity
    exceeds 10^6 solar luminosities, beyond the range [-4, 6] the remap
    covers, and its [hrY] is below -1. *)
Theorem hot_star_leaves_the_diagram :
  (forall k, 0 <= Sample.hotSource k < 1)
  /\ In (fst (StarGen.genStar 0 Sample.hotSource 0%nat))
        (StarGen.catalogue Sample.hotSource)
  /\ spectralType (fst (StarGen.genStar 0 Sample.hotSource 0%nat)) = SpectralType.O
  /\ 6 < JS.log10 (luminosity (fst (StarGen.genStar 0 Sample.hotSource 0%nat)))
  /\ hrY (fst (StarGen.genStar 0 Sample.hotSource 0%nat)) < -1.
Proof.
  destruct hot_star_fields as [Hty [_ Hl]].
  assert (H6 : 6 < JS.log10 (luminosity (fst (StarGen.genStar 0 Sample.hotSource 0%nat)))).
  { rewrite Hl. replace 6 with (INR 6) by (simpl; lra).
    apply log10_gt, hot_star_luminosity. }
  split; [apply hotSource_range |].
  split; [apply catalogue_first |].
  split; [exact Hty |]. split; [exact H6 |].
  destruct (genStar_fields 0 Sample.hotSource 0%nat) as [_ [_ [_ [_ [-> _]]]]].
  lra.
Qed.

(** * Further properties of the code *)

(** ** Geometry of the projections *)

Section Geometry.
Import Visualizer.
Variable current : ObserverState.
Variables time scaleFactor : R.

Lemma cos2_sin2 a : cos a * cos a + sin a * sin a = 1.
Proof. pose proof (sin2_cos2 a) as H. unfold Rsqr in H. lra. Qed.

Lemma altDeg_range star : -90 <= altDeg current star <= 90.
Proof.
  unfold altDeg.
  pose proof (asin_bound (sinAlt current star)) as [Hlo Hhi].
  assert (Hk : 0 < 180 / PI) by (apply Rdiv_lt_0_compat; [lra | apply PI_RGT_0]).
  assert (H90 : PI / 2 * (180 / PI) = 90) by (field; apply PI_neq0).
  split.
  - replace (-90) with (- (PI / 2) * (180 / PI)) by lra.
    apply Rmult_le_compat_r; lra.
  - rewrite <- H90. apply Rmult_le_compat_r; lra.
Qed.

(** In the polar projection a star sits at the distance
    [(90 - altitude) / 90] of the horizon radius from the centre. *)
Lemma polar_distance star m :
  m <> AppMode.HR_DIAGRAM -> m <> AppMode.GALAXY ->
  x (getScreenPos current time scaleFactor star m)
  * x (getScreenPos current time scaleFactor star m)
  + y (getScreenPos current time scaleFactor star m)
    * y (getScreenPos current time scaleFactor star m)
  = ((90 - altDeg current star) / 90 * (scaleFactor * 1.8))
    * ((90 - altDeg current star) / 90 * (scaleFactor * 1.8)).
Proof.
  intros Hhr Hgal.
  pose proof (cos2_sin2 (azRad current star - PI / 2)) as Hcs.
  destruct m; try contradiction; simpl;
    set (r := (90 - altDeg current star) / 90) in *;
    set (c := cos (azRad current star - PI / 2)) in *;
    set (s := sin (azRad current star - PI / 2)) in *;
    replace (r * c * scaleFactor * 1.8 * (r * c * scaleFactor * 1.8)
             + r * s * scaleFactor * 1.8 * (r * s * scaleFactor * 1.8))
      with (r * (scaleFactor * 1.8) * (r * (scaleFactor * 1.8)) * (c * c + s * s))
      by ring;
    rewrite Hcs; ring.
Qed.

(** X1: in the Sky and Classification projections, on a canvas of positive
    size, a star is drawn inside or on the horizon ring (radius
    [scaleFactor * 1.8]) exactly when its altitude is not negative, and no
    star is ever further from the centre than twice that radius. *)
Theorem horizon_ring_separates star m :
  0 < scaleFactor ->
  m = AppMode.SKY \/ m = AppMode.CLASSIFICATION ->
  (0 <= altDeg current star <->
   x (getScreenPos current time scaleFactor star m)
   * x (getScreenPos current time scaleFactor star m)
   + y (getScreenPos current time scaleFactor star m)
     * y (getScreenPos current time scaleFactor star m)
   <= (scaleFactor * 1.8) * (scaleFactor * 1.8))
  /\ x (getScreenPos current time scaleFactor star m)
     * x (getScreenPos current time scaleFactor star m)
     + y (getScreenPos current time scaleFactor star m)
       * y (getScreenPos current time scaleFactor star m)
     <= (2 * (scaleFactor * 1.8)) * (2 * (scaleFactor * 1.8)).
Proof.
  intros Hs Hm.
  rewrite polar_distance by (destruct Hm as [-> | ->]; discriminate).
  pose proof (altDeg_range star) as [Hlo Hhi].
  set (a := altDeg current star) in *.
  assert (Hr : (90 - a) / 90 = 1 - a / 90) by (field).
  rewrite Hr.
  set (k := scaleFactor * 1.8).
  assert (Hk : 0 < k) by (unfold k; lra).
  assert (Hkk : 0 < k * k) by nra.
  split; [split |].
  - intros Ha.
    assert (H1 : 0 <= 1 - a / 90 <= 1) by lra.
    assert (H2 : (1 - a / 90) * (1 - a / 90) <= 1) by nra.
    replace ((1 - a / 90) * k * ((1 - a / 90) * k))
      with ((1 - a / 90) * (1 - a / 90) * (k * k)) by ring.
    nra.
  - intros Hin.
    replace ((1 - a / 90) * k * ((1 - a / 90) * k))
      with ((1 - a / 90) * (1 - a / 90) * (k * k)) in Hin by ring.
    assert (H2 : (1 - a / 90) * (1 - a / 90) <= 1) by nra.
    assert (H0 : 0 <= 1 - a / 90) by lra.
    nra.
  - assert (H1 : 0 <= 1 - a / 90 <= 2) by lra.
    assert (H2 : (1 - a / 90) * (1 - a / 90) <= 4) by nra.
    replace ((1 - a / 90) * k * ((1 - a / 90) * k))
      with ((1 - a / 90) * (1 - a / 90) * (k * k)) by ring.
    nra.
Qed.

End Geometry.

Section GalaxyRotation.
Import Visualizer.
Variable current : ObserverState.
Variable scaleFactor : R.

(** The position of a star in the plane of the galaxy, read back from its
    screen position: the tilt (0.4) and the lift by [galZ] undone. *)
Local Abbreviation planeX time star :=
  (0.4 * x (getScreenPos current time scaleFactor star AppMode.GALAXY)).
Local Abbreviation planeY time star :=
  (y (getScreenPos current time scaleFactor star AppMode.GALAXY)
   - galZ star * 20 * scaleFactor * 2.5).

(** X2: the Galaxy view is a rigid rotation that turns with time: at time
    0 a star sits at [(galX, galY)] times the scale factor in the plane of
    the galaxy, and letting [elapsed] milliseconds pass turns the position
    of every star about the centre by one and the same angle,
    [elapsed * 0.00005]; hence the distance between any two stars is the
    same at all times. *)
Theorem galaxy_view_rotates_rigidly time elapsed star other :
  planeX 0 star = galX star * scaleFactor
  /\ planeY 0 star = galY star * scaleFactor
  /\ planeX (time + elapsed) star
     = planeX time star * cos (elapsed * 0.00005)
       - planeY time star * sin (elapsed * 0.00005)
  /\ planeY (time + elapsed) star
     = planeX time star * sin (elapsed * 0.00005)
       + planeY time star * cos (elapsed * 0.00005)
  /\ (planeX (time + elapsed) star - planeX (time + elapsed) other)
     * (planeX (time + elapsed) star - planeX (time + elapsed) other)
     + (planeY (time + elapsed) star - planeY (time + elapsed) other)
       * (planeY (time + elapsed) star - planeY (time + elapsed) other)
     = (planeX time star - planeX time other)
       * (planeX time star - planeX time other)
       + (planeY time star - planeY time other)
         * (planeY time star - planeY time other).
Proof.
  assert (Hplane : forall t s,
             planeX t s
             = (galX s * cos (t * 0.00005) - galY s * sin (t * 0.00005))
               * scaleFactor
             /\ planeY t s
                = (galX s * sin (t * 0.00005) + galY s * cos (t * 0.00005))
                  * scaleFactor).
  { intros t s. simpl. split; lra. }
  assert (Hturn : forall s,
             planeX (time + elapsed) s
             = planeX time s * cos (elapsed * 0.00005)
               - planeY time s * sin (elapsed * 0.00005)
             /\ planeY (time + elapsed) s
                = planeX time s * sin (elapsed * 0.00005)
                  + planeY time s * cos (elapsed * 0.00005)).
  { intros s.
    destruct (Hplane (time + elapsed) s) as [-> ->].
    destruct (Hplane time s) as [-> ->].
    replace ((time + elapsed) * 0.00005)
      with (time * 0.00005 + elapsed * 0.00005) by lra.
    rewrite cos_plus, sin_plus. split; ring. }
  split; [| split].
  - destruct (Hplane 0 star) as [-> _].
    rewrite Rmult_0_l, cos_0, sin_0. ring.
  - destruct (Hplane 0 star) as [_ ->].
    rewrite Rmult_0_l, cos_0, sin_0. ring.
  - destruct (Hturn star) as [Hx Hy]. destruct (Hturn other) as [Hx' Hy'].
    split; [exact Hx |]. split; [exact Hy |].
    rewrite Hx, Hy, Hx', Hy'.
    pose proof (cos2_sin2 (elapsed * 0.00005)) as Hcs.
    set (c := cos (elapsed * 0.00005)) in *.
    set (sn := sin (elapsed * 0.00005)) in *.
    set (a := planeX time star). set (b := planeY time star).
    set (a' := planeX time other). set (b' := planeY time other).
    replace ((a * c - b * sn - (a' * c - b' * sn))
             * (a * c - b * sn - (a' * c - b' * sn))
             + (a * sn + b * c - (a' * sn + b' * c))
               * (a * sn + b * c - (a' * sn + b' * c)))
      with (((a - a') * (a - a') + (b - b') * (b - b')) * (c * c + sn * sn))
      by ring.
    rewrite Hcs. ring.
Qed.

End GalaxyRotation.

Lemma horizon_ring_separates_witness :
  0 < 240
  /\ (0 <= Visualizer.altDeg Sample.equator (Sample.star SpectralType.G 90 2)
      <-> Visualizer.x (Visualizer.getScreenPos Sample.equator 0 240
                          (Sample.star SpectralType.G 90 2) AppMode.SKY)
          * Visualizer.x (Visualizer.getScreenPos Sample.equator 0 240
                            (Sample.star SpectralType.G 90 2) AppMode.SKY)
          + Visualizer.y (Visualizer.getScreenPos Sample.equator 0 240
                            (Sample.star SpectralType.G 90 2) AppMode.SKY)
            * Visualizer.y (Visualizer.getScreenPos Sample.equator 0 240
                              (Sample.star SpectralType.G 90 2) AppMode.SKY)
          <= (240 * 1.8) * (240 * 1.8)).
Proof.
  assert (Hs : 0 < 240) by lra.
  split; [exact Hs |].
  exact (proj1 (horizon_ring_separates Sample.equator 0 240
                  (Sample.star SpectralType.G 90 2) AppMode.SKY Hs
                  (or_introl eq_refl))).
Defined.

(** ** The transition over time *)

Section EasingOverTime.
Import Visualizer.

Lemma easeOutCubic_range v : 0 <= v <= 1 -> 0 <= easeOutCubic v <= 1.
Proof.
  intros Hv. split; [| apply easeOutCubic_le_1; lra].
  unfold easeOutCubic.
  assert (H : (1 - v) ^ 3 <= 1 ^ 3) by (apply pow_incr; lra).
  rewrite pow1 in H. lra.
Qed.

Lemma easeOutCubic_monotone a b : a <= b -> b <= 1 -> easeOutCubic a <= easeOutCubic b.
Proof.
  intros Hab Hb. unfold easeOutCubic.
  assert (H : (1 - b) ^ 3 <= (1 - a) ^ 3) by (apply pow_incr; lra).
  lra.
Qed.

Lemma fraction_monotone d e1 e2 : 0 < d -> e1 <= e2 -> Rmin (e1 / d) 1 <= Rmin (e2 / d) 1.
Proof.
  intros Hd He.
  assert (H : e1 / d <= e2 / d)
    by (apply Rmult_le_compat_r; [left; now apply Rinv_0_lt_compat | exact He]).
  apply Rmin_glb; [eapply Rle_trans; [apply Rmin_l | exact H] | apply Rmin_r].
Qed.

Lemma step_duration tr ev : duration (step tr ev) = duration tr.
Proof.
  destruct ev as [now requested | time]; simpl.
  - unfold modeEffect. now destruct (negb _).
  - apply advance_frame.
Qed.

Lemma tick_progress_range tr time :
  0 <= progress tr <= 1 -> 0 < duration tr -> startTime tr <= time ->
  0 <= progress (step tr (Tick time)) <= 1.
Proof.
  intros Hp Hd Hs. simpl. unfold advance.
  destruct (progress tr <? 1); simpl; [| exact Hp].
  apply easeOutCubic_range. split; [| apply Rmin_r].
  apply Rmin_glb; [apply Rle_mult_inv_pos; lra | lra].
Qed.

Lemma timely_progress evs : forall tr,
  0 <= progress tr <= 1 -> 0 < duration tr -> Clock.timely evs tr ->
  0 <= progress (run evs tr) <= 1.
Proof.
  induction evs as [| ev rest IH]; intros tr Hp Hd Ht; simpl; [exact Hp |].
  destruct Ht as [Hev Hrest].
  apply IH; [| now rewrite step_duration | exact Hrest].
  destruct ev as [now requested | time].
  - simpl. unfold modeEffect. destruct (negb _); simpl; lra.
  - now apply tick_progress_range.
Qed.

Lemma timely_snoc evs ev : forall tr,
  Clock.timely (evs ++ [ev]) tr
  <-> Clock.timely evs tr /\ Clock.timely [ev] (run evs tr).
Proof.
  induction evs as [| e rest IH]; intros tr.
  - change (run [] tr) with tr. simpl app. split.
    + intros H. split; [exact I | exact H].
    + intros [_ H]. exact H.
  - change (run (e :: rest) tr) with (run rest (step tr e)). split.
    + intros H. destruct H as [He Hr]. apply IH in Hr. destruct Hr as [Hr Hq].
      split; [split; assumption | assumption].
    + intros [[He Hr] Hq]. split; [exact He | apply IH; split; assumption].
Qed.

(** X3: between two frames with no mode request in between, the stored
    progress does not decrease when the second frame is not earlier than
    the first. *)
Theorem progress_never_goes_back tr time1 time2 :
  0 < duration tr ->
  time1 <= time2 ->
  progress (step tr (Tick time1))
  <= progress (step (step tr (Tick time1)) (Tick time2)).
Proof.
  intros Hd Ht. simpl.
  destruct (Rlt_dec (progress tr) 1) as [Hrun | Hidle].
  - rewrite (advance_running time1 tr Hrun). cbn [fst].
    set (tr1 := {| progress := _ |}).
    destruct (Rlt_dec (progress tr1) 1) as [Hrun1 | Hidle1].
    + rewrite (advance_running time2 tr1 Hrun1). simpl.
      apply easeOutCubic_monotone; [| apply Rmin_r].
      apply fraction_monotone; lra.
    + rewrite advance_idle by lra. simpl. lra.
  - rewrite (advance_idle time1 tr) by lra. cbn [fst].
    rewrite advance_idle by lra. simpl. lra.
Qed.

End EasingOverTime.

Lemma progress_never_goes_back_witness :
  0 < Visualizer.duration (Sample.leaving AppMode.SKY AppMode.GALAXY 1000)
  /\ 1016 <= 1032
  /\ Visualizer.progress
       (Visualizer.step (Sample.leaving AppMode.SKY AppMode.GALAXY 1000)
          (Visualizer.Tick 1016))
     <= Visualizer.progress
          (Visualizer.step
             (Visualizer.step (Sample.leaving AppMode.SKY AppMode.GALAXY 1000)
                (Visualizer.Tick 1016))
             (Visualizer.Tick 1032)).
Proof.
  assert (Hd : 0 < Visualizer.duration (Sample.leaving AppMode.SKY AppMode.GALAXY 1000))
    by (simpl; lra).
  assert (Ht : 1016 <= 1032) by lra.
  split; [exact Hd |]. split; [exact Ht |].
  exact (progress_never_goes_back _ 1016 1032 Hd Ht).
Defined.

Section ChromeOverTime.
Import Visualizer.
Variable mode0 : AppMode.t.
Variable evs : list Event.
Variable p : Props.
Variable canvas : Canvas.
Variable lastTime : R.
Variable current : ObserverState.
Variable time : R.

Local Abbreviation before := (run evs (initialTransition mode0)).
Local Abbreviation frame :=
  (render p canvas
     {| lastTimeRef := lastTime; transitionRef := before; observerRef := current |}
     time).

Lemma render_chrome :
  horizon frame
  = horizonOpacity (mode p) (fst (advance time before)) (snd (advance time before))
  /\ axes frame = axesAlpha (mode p) (snd (advance time before)).
Proof.
  unfold render. simpl.
  destruct (advance time before) as [tr t].
  destruct (forEach _ _ _ _ _ _ _ _ _ _ _) as [n cmds]. split; reflexivity.
Qed.

(** X4: on a clock that does not run backwards (every frame is rendered
    no earlier than the transition it advances was requested) the progress
    a frame stores is in [0, 1], and so are the opacity of the horizon ring
    and the alpha of the HR axes whenever the frame draws them. *)
Theorem timely_frame_in_range :
  Clock.timely (evs ++ [Tick time]) (initialTransition mode0) ->
  0 <= progress (transitionRef' frame) <= 1
  /\ (forall o, horizon frame = Some o -> 0 <= o <= 1)
  /\ (forall o, axes frame = Some o -> 0 <= o <= 1).
Proof.
  intros Ht.
  assert (Hp : 0 <= progress (run (evs ++ [Tick time]) (initialTransition mode0)) <= 1)
    by (apply timely_progress; simpl; try lra; exact Ht).
  rewrite run_snoc in Hp. simpl step in Hp.
  destruct render_chrome as [-> ->].
  rewrite render_transitionRef. simpl transitionRef.
  rewrite advance_t.
  set (q := progress (fst (advance time before))) in *.
  split; [exact Hp |]. split.
  - intros o. unfold horizonOpacity.
    destruct (skyMode (mode p)); [intros [= <-]; exact Hp |].
    destruct (AppMode.eqb _ _); [intros [= <-]; lra | discriminate].
  - intros o. unfold axesAlpha.
    destruct (AppMode.eqb _ _); [intros [= <-]; exact Hp | discriminate].
Qed.

End ChromeOverTime.

Lemma timely_frame_in_range_witness :
  Clock.timely ([Visualizer.Request 1000 AppMode.HR_DIAGRAM] ++ [Visualizer.Tick 1750])
    (Visualizer.initialTransition AppMode.SKY)
  /\ 0 <= Visualizer.progress
            (Visualizer.transitionRef'
               (Visualizer.render (Sample.props AppMode.HR_DIAGRAM []) Sample.canvas
                  {| Visualizer.lastTimeRef := 1734;
                     Visualizer.transitionRef :=
                       Visualizer.run [Visualizer.Request 1000 AppMode.HR_DIAGRAM]
                         (Visualizer.initialTransition AppMode.SKY);
                     Visualizer.observerRef := App.observer |}
                  1750)) <= 1.
Proof.
  assert (Ht : Clock.timely
                 ([Visualizer.Request 1000 AppMode.HR_DIAGRAM] ++ [Visualizer.Tick 1750])
                 (Visualizer.initialTransition AppMode.SKY))
    by (simpl; repeat split; lra).
  split; [exact Ht |].
  exact (proj1 (timely_frame_in_range AppMode.SKY
                  [Visualizer.Request 1000 AppMode.HR_DIAGRAM]
                  (Sample.props AppMode.HR_DIAGRAM []) Sample.canvas 1734
                  App.observer 1750 Ht)).
Defined.

Section Completion.
Import Visualizer.
Variable p : Props.
Variable canvas : Canvas.
Variable refs : Refs.
Variable time : R.

Local Abbreviation frame := (render p canvas refs time).
Local Abbreviation before := (transitionRef refs).
Local Abbreviation scale :=
  (Rmin (clientWidth canvas) (clientHeight canvas) * 0.4).
Local Abbreviation targetPos :=
  (fun star => getScreenPos (observerRef refs) time scale star (targetMode before)).

(** X5: the first frame rendered 1500 ms or more after a transition was
    requested stores a progress of exactly 1 and draws every star at its
    position in the target mode; from then on frames leave the transition
    state as it is, whatever their time. *)
Theorem transition_completes :
  progress before < 1 ->
  duration before = 1500 ->
  startTime before + 1500 <= time ->
  progress (transitionRef' frame) = 1
  /\ (forall cmd, In cmd (draws frame) ->
      exists star,
        In star (stars p)
        /\ arcX cmd = clientWidth canvas / 2 + x (targetPos star)
        /\ arcY cmd = clientHeight canvas / 2 + y (targetPos star))
  /\ (forall later,
        advance later (transitionRef' frame) = (transitionRef' frame, 1)).
Proof.
  intros Hp Hd Hs.
  assert (Hadv : advance time before
                 = ({| progress := 1; sourceMode := sourceMode before;
                       targetMode := targetMode before;
                       startTime := startTime before;
                       duration := duration before |}, 1)).
  { rewrite (advance_running _ _ Hp), Hd.
    rewrite Rmin_right, easeOutCubic_1; [reflexivity |].
    apply Rmult_le_reg_r with 1500; [lra |].
    replace ((time - startTime before) / 1500 * 1500)
      with (time - startTime before) by field. lra. }
  rewrite render_transitionRef, Hadv. cbn [fst]. split; [reflexivity |]. split.
  - intros cmd Hin. apply render_draws in Hin.
    destruct Hin as [star [Hstar Hbody]]. exists star. split; [assumption |].
    unfold frameBody in Hbody. rewrite Hadv in Hbody.
    apply body_drawn in Hbody.
    destruct Hbody as [_ [_ [_ [_ [Hx [Hy _]]]]]].
    rewrite Hx, Hy. unfold currentX, currentY. simpl. split; ring.
  - intros later. rewrite advance_idle by (simpl; lra). reflexivity.
Qed.

End Completion.

Lemma transition_completes_witness :
  Visualizer.progress (Sample.leaving AppMode.HR_DIAGRAM AppMode.GALAXY 1000) < 1
  /\ Visualizer.startTime (Sample.leaving AppMode.HR_DIAGRAM AppMode.GALAXY 1000)
     + 1500 <= 2500
  /\ Visualizer.progress
       (Visualizer.transitionRef'
          (Visualizer.render
             (Sample.props AppMode.GALAXY [Sample.star SpectralType.G 0 2])
             Sample.canvas
             (Sample.refs (Sample.leaving AppMode.HR_DIAGRAM AppMode.GALAXY 1000)
                App.observer) 2500)) = 1.
Proof.
  assert (Hp : Visualizer.progress
                 (Sample.leaving AppMode.HR_DIAGRAM AppMode.GALAXY 1000) < 1)
    by (simpl; lra).
  assert (Hs : Visualizer.startTime
                 (Sample.leaving AppMode.HR_DIAGRAM AppMode.GALAXY 1000)
               + 1500 <= 2500) by (simpl; lra).
  split; [exact Hp |]. split; [exact Hs |].
  exact (proj1 (transition_completes
                  (Sample.props AppMode.GALAXY [Sample.star SpectralType.G 0 2])
                  Sample.canvas
                  (Sample.refs (Sample.leaving AppMode.HR_DIAGRAM AppMode.GALAXY 1000)
                     App.observer) 2500 Hp eq_refl Hs)).
Defined.

(** ** What reaches the drawing surface *)

Section DrawStyle.
Import Visualizer.

Lemma starRadius_lower viewMode star :
  0.5 <= starRadius viewMode star
  /\ (viewMode = AppMode.HR_DIAGRAM -> 1 <= starRadius viewMode star).
Proof.
  unfold starRadius. split.
  - destruct (AppMode.eqb viewMode AppMode.HR_DIAGRAM); [| apply Rmax_l].
    destruct (_ <? 1) eqn:E; js_cmp; lra.
  - intros ->. simpl. destruct (_ <? 1) eqn:E; js_cmp; lra.
Qed.

(** Outside the HR diagram a radius above 1.8 means a magnitude below 6. *)
Lemma starRadius_bright viewMode star :
  viewMode <> AppMode.HR_DIAGRAM ->
  1.8 < starRadius viewMode star -> apparentMagnitude star < 6.
Proof.
  intros Hm. apply mode_eqb_neq in Hm. unfold starRadius. rewrite Hm.
  unfold Rmax. destruct (Rle_dec _ _); lra.
Qed.

Variable viewMode : AppMode.t.
Variable limit : R.
Variable filters : list SpectralType.t.
Variable current : ObserverState.
Variable tr : TransitionState.
Variables t time centerX centerY scaleFactor : R.

Lemma body_drawn_style star cmd :
  body viewMode limit filters current tr t time
       centerX centerY scaleFactor star = Drawn cmd ->
  arcRadius cmd = starRadius viewMode star
  /\ fillStyle cmd = color star
  /\ (shadowBlur cmd = 0
      \/ (shadowBlur cmd = arcRadius cmd * 3
          /\ 1.8 < arcRadius cmd /\ 0.5 < globalAlpha cmd)).
Proof.
  unfold body.
  destruct (negb _); [discriminate |].
  destruct (_ >? limit); [discriminate |].
  destruct (horizonCull _ _ _ _); [discriminate |].
  destruct (_ <=? 0); [discriminate |].
  intros H. injection H as <-. simpl.
  split; [reflexivity |]. split; [reflexivity |].
  destruct (starRadius viewMode star >? 1.8) eqn:Hr; simpl; [| now left].
  destruct (_ >? 0.5) eqn:Ha; [| now left].
  js_cmp. right. repeat split; assumption.
Qed.

Lemma body_drawn_blur star cmd :
  body viewMode limit filters current tr t time
       centerX centerY scaleFactor star = Drawn cmd ->
  shadowBlur cmd
  = if (arcRadius cmd >? 1.8) && (globalAlpha cmd >? 0.5)
    then arcRadius cmd * 3 else 0.
Proof.
  unfold body.
  destruct (negb _); [discriminate |].
  destruct (_ >? limit); [discriminate |].
  destruct (horizonCull _ _ _ _); [discriminate |].
  destruct (_ <=? 0); [discriminate |].
  intros H. injection H as <-. reflexivity.
Qed.

End DrawStyle.

Lemma starRadius_HR star :
  Visualizer.starRadius AppMode.HR_DIAGRAM star
  = Rmax 1 (JS.log10 (radius star * 10) * 2).
Proof.
  unfold Visualizer.starRadius. simpl. unfold Rmax.
  destruct (_ <? 1) eqn:E; destruct (Rle_dec _ _); js_cmp; lra.
Qed.

Lemma starRadius_other viewMode star :
  viewMode <> AppMode.HR_DIAGRAM ->
  Visualizer.starRadius viewMode star
  = Rmax 0.5 ((15 - apparentMagnitude star) / 5).
Proof.
  intros Hm. apply mode_eqb_neq in Hm.
  unfold Visualizer.starRadius. now rewrite Hm.
Qed.

Section FrameStyle.
Import Visualizer.
Variable p : Props.
Variable canvas : Canvas.
Variable refs : Refs.
Variable time : R.

(** X6: over a catalogue whose stars have a positive physical radius
    (needed in HR-diagram mode, where the logarithm of the radius is
    taken), the radius of every circle a frame draws is at least 0.5: it
    is [max (1, log10 (radius * 10) * 2)] in HR-diagram mode and
    [max (0.5, (15 - apparentMagnitude) / 5)] in every other mode, so the
    drawing surface never receives a negative or vanishing radius. *)
Theorem drawn_radius_is_positive :
  (mode p = AppMode.HR_DIAGRAM -> Forall (fun star => 0 < radius star) (stars p)) ->
  Forall
    (fun cmd =>
       0.5 <= arcRadius cmd
       /\ (mode p = AppMode.HR_DIAGRAM -> 1 <= arcRadius cmd)
       /\ exists star,
            In star (stars p)
            /\ frameBody p canvas refs time star = Drawn cmd
            /\ (mode p = AppMode.HR_DIAGRAM ->
                0 < radius star
                /\ arcRadius cmd = Rmax 1 (JS.log10 (radius star * 10) * 2))
            /\ (mode p <> AppMode.HR_DIAGRAM ->
                arcRadius cmd = Rmax 0.5 ((15 - apparentMagnitude star) / 5)))
    (draws (render p canvas refs time)).
Proof.
  intros Hradius. apply Forall_forall. intros cmd Hin.
  apply render_draws in Hin. destruct Hin as [star [Hstar Hbody]].
  pose proof Hbody as Hkeep.
  unfold frameBody in Hbody. destruct (advance _ _) as [tr t].
  apply body_drawn_style in Hbody. destruct Hbody as [Hr _].
  rewrite Hr.
  split; [apply starRadius_lower |]. split; [apply starRadius_lower |].
  exists star. split; [exact Hstar |]. split; [exact Hkeep |]. split.
  - intros Hm. split.
    + pose proof (Hradius Hm) as Hall.
      rewrite Forall_forall in Hall. now apply Hall.
    + rewrite Hm. apply starRadius_HR.
  - intros Hm. now apply starRadius_other.
Qed.

(** X7: over a catalogue whose stars have a positive physical radius in
    HR-diagram mode, a drawn star gets a glow, a [shadowBlur] of three
    times its radius, exactly when its radius exceeds 1.8 and its alpha
    exceeds 0.5; otherwise the blur is 0.  Outside HR-diagram mode a
    glowing star has an apparent magnitude below 6. *)
Theorem glow_only_for_bright_stars :
  (mode p = AppMode.HR_DIAGRAM -> Forall (fun star => 0 < radius star) (stars p)) ->
  Forall
    (fun cmd =>
       (1.8 < arcRadius cmd /\ 0.5 < globalAlpha cmd ->
        shadowBlur cmd = arcRadius cmd * 3)
       /\ (arcRadius cmd <= 1.8 \/ globalAlpha cmd <= 0.5 -> shadowBlur cmd = 0)
       /\ 0 <= shadowBlur cmd
       /\ (0 < shadowBlur cmd ->
           shadowBlur cmd = arcRadius cmd * 3
           /\ 1.8 < arcRadius cmd
           /\ 0.5 < globalAlpha cmd
           /\ (mode p <> AppMode.HR_DIAGRAM ->
               exists star,
                 In star (stars p)
                 /\ frameBody p canvas refs time star = Drawn cmd
                 /\ apparentMagnitude star < 6)))
    (draws (render p canvas refs time)).
Proof.
  intros _. apply Forall_forall. intros cmd Hin.
  apply render_draws in Hin. destruct Hin as [star [Hstar Hbody]].
  pose proof Hbody as Hkeep.
  unfold frameBody in Hbody. destruct (advance _ _) as [tr t].
  pose proof (body_drawn_blur _ _ _ _ _ _ _ _ _ _ _ _ Hbody) as Hblur.
  apply body_drawn_style in Hbody. destruct Hbody as [Hr _].
  pose proof (proj1 (starRadius_lower (mode p) star)) as Hlow.
  rewrite <- Hr in Hlow.
  destruct (arcRadius cmd >? 1.8) eqn:E1;
    destruct (globalAlpha cmd >? 0.5) eqn:E2; simpl in Hblur; js_cmp.
  - split; [intros _; exact Hblur |].
    split; [intros [H | H]; lra |].
    split; [lra |]. intros _. repeat split; try assumption.
    intros Hm. exists star. split; [assumption |]. split; [assumption |].
    apply (starRadius_bright (mode p)); [assumption | now rewrite <- Hr].
  - split; [intros [_ H]; lra |].
    split; [intros _; exact Hblur |]. split; lra.
  - split; [intros [H _]; lra |].
    split; [intros _; exact Hblur |]. split; lra.
  - split; [intros [H _]; lra |].
    split; [intros _; exact Hblur |]. split; lra.
Qed.

End FrameStyle.

(** ** The census count *)

Section Counting.
Import Visualizer.

Lemma drawn_length_le (f : Star -> Outcome) catalogue :
  (List.length
     (flat_map (fun star => match f star with Drawn cmd => [cmd] | _ => [] end)
        catalogue)
   <= List.length catalogue)%nat.
Proof.
  induction catalogue as [| s rest IH]; simpl; [lia |].
  rewrite length_app. destruct (f s); simpl; lia.
Qed.

Lemma drawn_length_monotone (f g : Star -> Outcome) catalogue :
  (forall star cmd, f star = Drawn cmd -> exists cmd', g star = Drawn cmd') ->
  (List.length
     (flat_map (fun star => match f star with Drawn cmd => [cmd] | _ => [] end)
        catalogue)
   <= List.length
        (flat_map (fun star => match g star with Drawn cmd => [cmd] | _ => [] end)
           catalogue))%nat.
Proof.
  intros Hfg. induction catalogue as [| s rest IH]; simpl; [lia |].
  rewrite !length_app.
  destruct (f s) as [ | | | cmd] eqn:Hf; simpl; try lia.
  destruct (Hfg s cmd Hf) as [cmd' ->]. simpl. lia.
Qed.

Lemma render_count_flat p canvas refs time :
  setStatsArg (render p canvas refs time)
  = List.length
      (flat_map
         (fun star =>
            match frameBody p canvas refs time star with
            | Drawn cmd => [cmd]
            | _ => []
            end)
         (stars p)).
Proof.
  pose proof (render_forEach p canvas refs time) as H.
  rewrite traversal_from in H. simpl in H. now injection H as -> _.
Qed.

Variable p : Props.
Variable canvas : Canvas.
Variable refs : Refs.
Variable time : R.

(** X8: the count a frame reports is the number of its draw calls; it
    never exceeds the size of the catalogue, and it is 0, with nothing
    drawn, when no spectral filter is active. *)
Theorem visible_count_bounds :
  setStatsArg (render p canvas refs time)
  = List.length (draws (render p canvas refs time))
  /\ (setStatsArg (render p canvas refs time) <= List.length (stars p))%nat
  /\ (activeFilters p = [] ->
      setStatsArg (render p canvas refs time) = 0%nat
      /\ draws (render p canvas refs time) = []).
Proof.
  split; [apply render_count |].
  split; [rewrite render_count_flat; apply drawn_length_le |].
  intros Hnone.
  assert (Hd : draws (render p canvas refs time) = []).
  { destruct (draws (render p canvas refs time)) as [| cmd rest] eqn:E;
      [reflexivity |].
    assert (Hin : In cmd (draws (render p canvas refs time)))
      by (rewrite E; now left).
    apply render_draws in Hin. destruct Hin as [star [_ Hbody]].
    unfold frameBody in Hbody. destruct (advance _ _) as [tr t].
    apply body_drawn in Hbody. destruct Hbody as [Hinc _].
    rewrite Hnone in Hinc. discriminate. }
  split; [| exact Hd]. rewrite render_count, Hd. reflexivity.
Qed.

End Counting.

Lemma visible_count_bounds_witness :
  Visualizer.activeFilters
    {| Visualizer.stars := [Sample.star SpectralType.G 0 2];
       Visualizer.mode := AppMode.GALAXY;
       Visualizer.observationalPower := App.observationalPower;
       Visualizer.activeFilters := [];
       Visualizer.observer := App.observer |} = []
  /\ Visualizer.setStatsArg
       (Visualizer.render
          {| Visualizer.stars := [Sample.star SpectralType.G 0 2];
             Visualizer.mode := AppMode.GALAXY;
             Visualizer.observationalPower := App.observationalPower;
             Visualizer.activeFilters := [];
             Visualizer.observer := App.observer |}
          Sample.canvas
          (Sample.refs (Visualizer.initialTransition AppMode.GALAXY) App.observer)
          1016) = 0%nat.
Proof.
  split; [reflexivity |].
  exact (proj1 (proj2 (proj2
           (visible_count_bounds
              {| Visualizer.stars := [Sample.star SpectralType.G 0 2];
                 Visualizer.mode := AppMode.GALAXY;
                 Visualizer.observationalPower := App.observationalPower;
                 Visualizer.activeFilters := [];
                 Visualizer.observer := App.observer |}
              Sample.canvas
              (Sample.refs (Visualizer.initialTransition AppMode.GALAXY) App.observer)
              1016)) eq_refl)).
Defined.

Section MoreIsMore.
Import Visualizer.
Variable viewMode : AppMode.t.
Variable current : ObserverState.
Variable tr : TransitionState.
Variables t time centerX centerY scaleFactor : R.

Lemma magnitudeAlpha_monotone limit1 limit2 star :
  limit1 <= limit2 ->
  apparentMagnitude star <= limit1 ->
  magnitudeAlpha limit1 star <= magnitudeAlpha limit2 star.
Proof.
  intros Hl Hm. unfold magnitudeAlpha.
  destruct (apparentMagnitude star >? limit1 - 1) eqn:E1;
    destruct (apparentMagnitude star >? limit2 - 1) eqn:E2; js_cmp; lra.
Qed.

(** A star drawn under a limit and a set of filters is drawn, no dimmer,
    under a higher limit and a larger set. *)
Lemma body_monotone limit1 limit2 filters1 filters2 star cmd :
  limit1 <= limit2 ->
  (forall ty, In ty filters1 -> In ty filters2) ->
  body viewMode limit1 filters1 current tr t time
       centerX centerY scaleFactor star = Drawn cmd ->
  exists cmd',
    body viewMode limit2 filters2 current tr t time
         centerX centerY scaleFactor star = Drawn cmd'
    /\ globalAlpha cmd <= globalAlpha cmd'.
Proof.
  intros Hl Hincl Hbody. apply body_drawn in Hbody.
  destruct Hbody as [Hin [Hm [Hc [Hpos [_ [_ Ha]]]]]].
  apply includes_In, Hincl, includes_In in Hin.
  pose proof (magnitudeAlpha_range limit1 star Hm) as Hr1.
  pose proof (magnitudeAlpha_monotone limit1 limit2 star Hl Hm) as Hmono.
  assert (Hfa : finalAlpha viewMode limit1 current tr t star
                <= finalAlpha viewMode limit2 current tr t star).
  { unfold finalAlpha in *.
    set (e := extinctionFactor viewMode current tr t star) in *.
    set (h := horizonFade viewMode current tr star) in *.
    set (a1 := magnitudeAlpha limit1 star) in *.
    set (a2 := magnitudeAlpha limit2 star) in *.
    assert (Heh : 0 < e * h).
    { destruct (Rlt_dec 0 (e * h)) as [H | H]; [exact H |].
      assert (a1 * (e * h) <= 0) by nra. lra. }
    replace (a1 * e * h) with (a1 * (e * h)) by ring.
    replace (a2 * e * h) with (a2 * (e * h)) by ring.
    apply Rmult_le_compat_r; lra. }
  unfold body. rewrite Hin, Hc. simpl negb. cbv iota.
  replace (apparentMagnitude star >? limit2) with false
    by (symmetry; apply gtb_false; lra).
  replace (finalAlpha viewMode limit2 current tr t star <=? 0) with false
    by (symmetry; apply leb_false; lra).
  eexists. split; [reflexivity |]. simpl. rewrite Ha. exact Hfa.
Qed.

End MoreIsMore.

Lemma effectiveLimit_nondecreasing settings power1 power2 :
  power1 <= power2 ->
  Visualizer.effectiveLimit power1 settings
  <= Visualizer.effectiveLimit power2 settings.
Proof.
  intros Hp. unfold Visualizer.effectiveLimit.
  pose proof (instrumentLimit_monotone power1 power2 Hp) as Hi.
  apply Rmin_glb.
  - eapply Rle_trans; [apply Rmin_l | exact Hi].
  - eapply Rle_trans; [apply Rmin_r | lra].
Qed.

Section MoreIsMoreFrame.
Import Visualizer.
Variable viewMode : AppMode.t.
Variables power1 power2 : R.
Variables filters1 filters2 : list SpectralType.t.
Variable settings : ObserverState.
Variable catalogue : list Star.
Variable canvas : Canvas.
Variable refs : Refs.
Variable time : R.

(** X9: with everything else equal, the count a frame reports does not
    decrease when the observational power is raised or when spectral
    filters are added. *)
Theorem more_power_more_stars :
  power1 <= power2 ->
  (forall ty, In ty filters1 -> In ty filters2) ->
  (setStatsArg
     (render {| stars := catalogue; mode := viewMode;
                observationalPower := power1; activeFilters := filters1;
                observer := settings |} canvas refs time)
   <= setStatsArg
        (render {| stars := catalogue; mode := viewMode;
                   observationalPower := power2; activeFilters := filters2;
                   observer := settings |} canvas refs time))%nat.
Proof.
  intros Hp Hincl. rewrite !render_count_flat. cbn [stars].
  apply drawn_length_monotone. intros star cmd Hbody.
  unfold frameBody in *. cbn [mode observationalPower activeFilters observer] in *.
  destruct (advance time (transitionRef refs)) as [tr t].
  destruct (body_monotone viewMode (observerRef refs) tr t time _ _ _
              (effectiveLimit power1 settings) (effectiveLimit power2 settings)
              filters1 filters2 star cmd
              (effectiveLimit_nondecreasing settings power1 power2 Hp)
              Hincl Hbody)
    as [cmd' [H _]].
  now exists cmd'.
Qed.

End MoreIsMoreFrame.

Lemma more_power_more_stars_witness :
  0.05 <= 0.35
  /\ (forall ty, In ty [SpectralType.G] -> In ty App.activeFilters)
  /\ (Visualizer.setStatsArg
        (Visualizer.render
           {| Visualizer.stars := [Sample.star SpectralType.G 0 2];
              Visualizer.mode := AppMode.GALAXY;
              Visualizer.observationalPower := 0.05;
              Visualizer.activeFilters := [SpectralType.G];
              Visualizer.observer := App.observer |}
           Sample.canvas
           (Sample.refs (Visualizer.initialTransition AppMode.GALAXY) App.observer)
           1016)
      <= Visualizer.setStatsArg
           (Visualizer.render
              {| Visualizer.stars := [Sample.star SpectralType.G 0 2];
                 Visualizer.mode := AppMode.GALAXY;
                 Visualizer.observationalPower := 0.35;
                 Visualizer.activeFilters := App.activeFilters;
                 Visualizer.observer := App.observer |}
              Sample.canvas
              (Sample.refs (Visualizer.initialTransition AppMode.GALAXY) App.observer)
              1016))%nat.
Proof.
  assert (Hp : 0.05 <= 0.35) by lra.
  assert (Hi : forall ty, In ty [SpectralType.G] -> In ty App.activeFilters).
  { intros ty [<- | []]. simpl. tauto. }
  split; [exact Hp |]. split; [exact Hi |].
  exact (more_power_more_stars AppMode.GALAXY 0.05 0.35 [SpectralType.G]
           App.activeFilters App.observer [Sample.star SpectralType.G 0 2]
           Sample.canvas
           (Sample.refs (Visualizer.initialTransition AppMode.GALAXY) App.observer)
           1016 Hp Hi).
Defined.

(** ** The limit over the range of the sliders *)

Section LimitRange.
Import Visualizer.

(** X10: with the observational power and the light-pollution setting in
    the range [0, 1] of their sliders the effective limit lies between 2.5
    and 12, never above the instrument limit; above a power of 4/7 it is
    always the pollution cap that decides. *)
Theorem effectiveLimit_on_sliders power settings :
  0 <= power <= 1 ->
  0 <= lightPollutionLimit settings <= 1 ->
  2.5 <= effectiveLimit power settings <= 12
  /\ effectiveLimit power settings <= instrumentLimit power
  /\ (4 / 7 < power ->
      effectiveLimit power settings = pollutionLimit settings + power * 5).
Proof.
  intros Hp Hl. unfold effectiveLimit, instrumentLimit, pollutionLimit.
  split; [split |]; [| | split].
  - apply Rmin_glb; lra.
  - eapply Rle_trans; [apply Rmin_r | lra].
  - apply Rmin_l.
  - intros H47. apply Rmin_right. lra.
Qed.

(** X11: for a fixed observational power the effective limit does not
    decrease when the light-pollution setting grows (darker sky). *)
Theorem effectiveLimit_monotone_in_pollution power settings1 settings2 :
  lightPollutionLimit settings1 <= lightPollutionLimit settings2 ->
  effectiveLimit power settings1 <= effectiveLimit power settings2.
Proof.
  intros Hl. unfold effectiveLimit, pollutionLimit.
  apply Rmin_glb.
  - apply Rmin_l.
  - eapply Rle_trans; [apply Rmin_r | lra].
Qed.

End LimitRange.

Lemma effectiveLimit_on_sliders_witness :
  0 <= 0.65 <= 1
  /\ 0 <= lightPollutionLimit App.observer <= 1
  /\ Visualizer.effectiveLimit 0.65 App.observer
     = Visualizer.pollutionLimit App.observer + 0.65 * 5.
Proof.
  assert (Hp : 0 <= 0.65 <= 1) by lra.
  assert (Hl : 0 <= lightPollutionLimit App.observer <= 1) by (simpl; lra).
  assert (H47 : 4 / 7 < 0.65) by lra.
  split; [exact Hp |]. split; [exact Hl |].
  exact (proj2 (proj2 (effectiveLimit_on_sliders 0.65 App.observer Hp Hl)) H47).
Defined.

Lemma effectiveLimit_monotone_in_pollution_witness :
  lightPollutionLimit App.observer
  <= lightPollutionLimit
       (Controls.updateObserver App.observer (Controls.lightPollutionLimitKey 0.9))
  /\ Visualizer.effectiveLimit 0.65 App.observer
     <= Visualizer.effectiveLimit 0.65
          (Controls.updateObserver App.observer (Controls.lightPollutionLimitKey 0.9)).
Proof.
  assert (Hl : lightPollutionLimit App.observer
               <= lightPollutionLimit
                    (Controls.updateObserver App.observer
                       (Controls.lightPollutionLimitKey 0.9)))
    by (simpl; lra).
  split; [exact Hl |].
  exact (effectiveLimit_monotone_in_pollution 0.65 _ _ Hl).
Defined.

(** ** Sidereal time stays on the dial *)

Lemma rem_below x m : 0 <= x < m -> JS.rem x m = x.
Proof.
  intros [Hx Hm]. unfold JS.rem, JS.trunc.
  assert (Hmpos : 0 < m) by lra.
  assert (Hq : 0 <= x / m) by (apply Rle_mult_inv_pos; lra).
  assert (Hq1 : x / m < 1).
  { apply Rmult_lt_reg_r with m; [exact Hmpos |].
    replace (x / m * m) with x by (field; lra). lra. }
  destruct (Rle_dec 0 (x / m)) as [_ | Hn]; [| contradiction].
  set (q := x / m) in *.
  assert (Hz : 0%Z = Int_part q) by (apply Int_part_spec; lra).
  rewrite <- Hz. simpl. ring.
Qed.

Section Dial.
Import Visualizer.
Variable p : Props.
Variable canvas : Canvas.
Variable refs : Refs.
Variable time : R.

Local Abbreviation obs := (observerRef refs).
Local Abbreviation delta := (fst (tick (lastTimeRef refs) time)).
Local Abbreviation frame := (render p canvas refs time).

Lemma delta_nonneg : lastTimeRef refs <= time -> 0 <= delta.
Proof.
  intros Ht. unfold tick, JS.eqb. simpl.
  destruct (Req_dec_T (lastTimeRef refs) 0); lra.
Qed.

(** X12: when the frame is not earlier than the previous one and the time
    speed is not negative, a sidereal time in [0, 360) is written back in
    [0, 360); it is the plain sum when that is below 360, and on the first
    frame (no previous frame time recorded) it is unchanged. *)
Theorem sidereal_time_stays_on_dial :
  isPaused obs = false ->
  mode p = AppMode.SKY ->
  0 <= localSiderealTime obs < 360 ->
  0 <= timeSpeed obs ->
  lastTimeRef refs <= time ->
  exists written,
    setObserverArg frame = Some written
    /\ 0 <= localSiderealTime written < 360
    /\ (localSiderealTime obs + delta * 0.01 * timeSpeed obs < 360 ->
        localSiderealTime written
        = localSiderealTime obs + delta * 0.01 * timeSpeed obs)
    /\ (lastTimeRef refs = 0 ->
        localSiderealTime written = localSiderealTime obs).
Proof.
  intros Hp Hm Hlst Hspeed Ht.
  pose proof (delta_nonneg Ht) as Hd.
  assert (Hsum : 0 <= localSiderealTime obs + delta * 0.01 * timeSpeed obs).
  { assert (0 <= delta * 0.01 * timeSpeed obs)
      by (apply Rmult_le_pos; [apply Rmult_le_pos |]; lra).
    lra. }
  rewrite render_setObserverArg. unfold rotate. rewrite Hp, Hm.
  cbn [negb andb AppMode.eqb].
  eexists. split; [reflexivity |]. cbn [localSiderealTime].
  split; [now apply rem_360_range |]. split.
  - intros Hlt. apply rem_below. lra.
  - intros H0. destruct (delta_since_last refs time) as [_ Hfirst].
    rewrite (Hfirst H0). rewrite rem_below; lra.
Qed.

End Dial.

Lemma sidereal_time_stays_on_dial_witness :
  isPaused App.observer = false
  /\ 0 <= localSiderealTime App.observer < 360
  /\ 0 <= timeSpeed App.observer
  /\ Visualizer.lastTimeRef
       (Sample.refs (Visualizer.initialTransition AppMode.SKY) App.observer)
     <= 1016
  /\ exists written,
       Visualizer.setObserverArg
         (Visualizer.render (Sample.props AppMode.SKY []) Sample.canvas
            (Sample.refs (Visualizer.initialTransition AppMode.SKY) App.observer)
            1016) = Some written
       /\ 0 <= localSiderealTime written < 360.
Proof.
  assert (Hp : isPaused App.observer = false) by reflexivity.
  assert (Hl : 0 <= localSiderealTime App.observer < 360) by (simpl; lra).
  assert (Hs : 0 <= timeSpeed App.observer) by (simpl; lra).
  assert (Ht : Visualizer.lastTimeRef
                 (Sample.refs (Visualizer.initialTransition AppMode.SKY) App.observer)
               <= 1016) by (simpl; lra).
  split; [exact Hp |]. split; [exact Hl |]. split; [exact Hs |].
  split; [exact Ht |].
  destruct (sidereal_time_stays_on_dial (Sample.props AppMode.SKY []) Sample.canvas
              (Sample.refs (Visualizer.initialTransition AppMode.SKY) App.observer)
              1016 Hp eq_refl Hl Hs Ht) as [written [Hw [Hr _]]].
  exists written. split; [exact Hw | exact Hr].
Defined.

(** ** Spectral filters *)

Section Filters.

Lemma type_eqb_neq a b : SpectralType.eqb a b = false <-> a <> b.
Proof. destruct a, b; simpl; split; intros; (congruence || discriminate). Qed.

Lemma toggleFilter_In ty prev t :
  In t (App.toggleFilter ty prev)
  <-> (t = ty /\ ~ In ty prev) \/ (t <> ty /\ In t prev).
Proof.
  unfold App.toggleFilter.
  destruct (includes prev ty) eqn:E.
  - apply includes_In in E. rewrite filter_In. split.
    + intros [Hin Hne]. right. split; [| exact Hin].
      apply negb_true_iff, type_eqb_neq in Hne. exact Hne.
    + intros [[_ Hnot] | [Hne Hin]]; [contradiction |].
      split; [exact Hin |]. now apply negb_true_iff, type_eqb_neq.
  - assert (Hnot : ~ In ty prev)
      by (intros H; apply includes_In in H; congruence).
    rewrite in_app_iff. simpl. split.
    + intros [Hin | [<- | []]].
      * right. split; [| exact Hin]. intros ->. contradiction.
      * now left.
    + intros [[-> _] | [_ Hin]]; [right; now left | now left].
Qed.

Lemma NoDup_snoc (ty : SpectralType.t) prev :
  NoDup prev -> ~ In ty prev -> NoDup (prev ++ [ty]).
Proof.
  induction prev as [| h rest IH]; intros Hnd Hnot; simpl.
  - constructor; [intros [] | constructor].
  - inversion Hnd as [| ? ? Hh Hrest]; subst. constructor.
    + rewrite in_app_iff. simpl. intros [H | [H | []]]; [contradiction |].
      subst. apply Hnot. now left.
    + apply IH; [exact Hrest |]. intros H. apply Hnot. now right.
Qed.

(** X13: [toggleFilter] flips the membership of the toggled type and of
    no other; a list without duplicates stays without duplicates; and
    toggling the same type twice gives back the same set of filters. *)
Theorem toggleFilter_flips_one ty prev :
  (In ty (App.toggleFilter ty prev) <-> ~ In ty prev)
  /\ (forall t, t <> ty -> (In t (App.toggleFilter ty prev) <-> In t prev))
  /\ (NoDup prev -> NoDup (App.toggleFilter ty prev))
  /\ (forall t,
        In t (App.toggleFilter ty (App.toggleFilter ty prev)) <-> In t prev).
Proof.
  assert (Hdec : forall t, In t prev \/ ~ In t prev).
  { intros t. destruct (includes prev t) eqn:E.
    - left. now apply includes_In.
    - right. intros H. apply includes_In in H. congruence. }
  assert (Heq : forall t, t = ty \/ t <> ty).
  { intros t. destruct (SpectralType.eqb t ty) eqn:E.
    - left. now apply type_eqb_eq.
    - right. now apply type_eqb_neq. }
  split; [| split; [| split]].
  - rewrite toggleFilter_In. split.
    + intros [[_ H] | [H _]]; [exact H | congruence].
    + intros H. left. now split.
  - intros t Hne. rewrite toggleFilter_In. split.
    + intros [[H _] | [_ H]]; [contradiction | exact H].
    + intros H. right. now split.
  - intros Hnd. unfold App.toggleFilter.
    destruct (includes prev ty) eqn:E.
    + now apply NoDup_filter.
    + apply NoDup_snoc; [exact Hnd |].
      intros H. apply includes_In in H. congruence.
  - intros t. rewrite !toggleFilter_In.
    destruct (Heq t) as [-> | Hne].
    + assert (Hrefl : ty = ty) by reflexivity.
      destruct (Hdec ty); tauto.
    + destruct (Hdec ty); destruct (Hdec t); tauto.
Qed.

End Filters.

Section FiltersInFrames.
Import Visualizer.
Variable viewMode : AppMode.t.
Variable power : R.
Variable prev : list SpectralType.t.
Variable settings : ObserverState.
Variable catalogue : list Star.
Variable canvas : Canvas.
Variable refs : Refs.
Variable time : R.

Local Abbreviation withFilters filters :=
  {| stars := catalogue; mode := viewMode; observationalPower := power;
     activeFilters := filters; observer := settings |}.

Lemma includes_toggle_other ty t :
  t <> ty -> includes (App.toggleFilter ty prev) t = includes prev t.
Proof.
  intros Hne.
  destruct (includes prev t) eqn:E.
  - apply includes_In. apply toggleFilter_In. right.
    split; [exact Hne | now apply includes_In].
  - destruct (includes (App.toggleFilter ty prev) t) eqn:E'; [| reflexivity].
    apply includes_In, toggleFilter_In in E'.
    destruct E' as [[H _] | [_ H]]; [contradiction |].
    apply includes_In in H. congruence.
Qed.

(** X14: once an active spectral type is toggled off, every star of that
    type leaves the callback at the filter in the frames that follow,
    while the stars of every other type fare exactly as before. *)
Theorem toggled_off_type_is_filtered ty star :
  In ty prev ->
  (spectralType star = ty ->
   frameBody (withFilters (App.toggleFilter ty prev)) canvas refs time star
   = Filtered)
  /\ (spectralType star <> ty ->
      frameBody (withFilters (App.toggleFilter ty prev)) canvas refs time star
      = frameBody (withFilters prev) canvas refs time star).
Proof.
  intros Hin. unfold frameBody. cbn [mode observationalPower activeFilters observer].
  destruct (advance time (transitionRef refs)) as [tr t]. split.
  - intros Hty. unfold body.
    replace (includes (App.toggleFilter ty prev) (spectralType star)) with false;
      [reflexivity |].
    symmetry. destruct (includes _ _) eqn:E; [| reflexivity].
    apply includes_In, toggleFilter_In in E. rewrite Hty in E.
    destruct E as [[_ H] | [H _]]; [contradiction | congruence].
  - intros Hne. unfold body. now rewrite includes_toggle_other.
Qed.

End FiltersInFrames.

Lemma toggled_off_type_is_filtered_witness :
  In SpectralType.G App.activeFilters
  /\ Visualizer.frameBody
       {| Visualizer.stars := [Sample.star SpectralType.G 0 2];
          Visualizer.mode := AppMode.GALAXY;
          Visualizer.observationalPower := App.observationalPower;
          Visualizer.activeFilters :=
            App.toggleFilter SpectralType.G App.activeFilters;
          Visualizer.observer := App.observer |}
       Sample.canvas
       (Sample.refs (Visualizer.initialTransition AppMode.GALAXY) App.observer)
       1016 (Sample.star SpectralType.G 0 2)
     = Visualizer.Filtered.
Proof.
  assert (Hin : In SpectralType.G App.activeFilters) by (simpl; tauto).
  split; [exact Hin |].
  exact (proj1 (toggled_off_type_is_filtered AppMode.GALAXY App.observationalPower
                  App.activeFilters App.observer [Sample.star SpectralType.G 0 2]
                  Sample.canvas
                  (Sample.refs (Visualizer.initialTransition AppMode.GALAXY)
                     App.observer)
                  1016 SpectralType.G (Sample.star SpectralType.G 0 2) Hin)
               eq_refl).
Defined.

(** ** The control panel *)

Section Panel.
Import Controls.

Lemma currentPresetIndex_cases power :
  currentPresetIndex power
  = if power <? 0.2 then 0%Z
    else if power <? 0.5 then 1%Z
    else if power <? 0.8 then 2%Z
    else if power <? 1.1 then 3%Z
    else (-1)%Z.
Proof.
  unfold currentPresetIndex, findIndex, POWER_PRESETS.
  cbn [findIndexFrom maxRange Z.add Pos.add].
  replace 1.0 with 1 by lra.
  repeat (destruct (_ <? _); [reflexivity |]). reflexivity.
Qed.

(** X15: an active preset always exists: Naked Eye below a power of 0.2,
    Binoculars from 0.2 up to 0.5, Telescope from 0.5 up to 0.8, and Deep
    Survey from 0.8 on, also for a power at or beyond the last range. *)
Theorem activePreset_by_range power :
  (exists preset, activePreset power = Some preset /\ In preset POWER_PRESETS)
  /\ (power < 0.2 -> activePreset power = nth_error POWER_PRESETS 0)
  /\ (0.2 <= power < 0.5 -> activePreset power = nth_error POWER_PRESETS 1)
  /\ (0.5 <= power < 0.8 -> activePreset power = nth_error POWER_PRESETS 2)
  /\ (0.8 <= power -> activePreset power = nth_error POWER_PRESETS 3).
Proof.
  unfold activePreset. rewrite currentPresetIndex_cases.
  destruct (power <? 0.2) eqn:E1;
    [| destruct (power <? 0.5) eqn:E2;
       [| destruct (power <? 0.8) eqn:E3;
          [| destruct (power <? 1.1) eqn:E4]]];
    js_cmp; simpl;
    (split;
     [eexists; split; [reflexivity | simpl; tauto]
     | repeat split; intros H; (reflexivity || lra)]).
Qed.

(** X16: every preset button selects a power for which that very preset
    is the active one. *)
Theorem preset_button_selects_itself :
  Forall (fun preset => activePreset (value preset) = Some preset) POWER_PRESETS.
Proof.
  unfold POWER_PRESETS.
  repeat constructor; unfold activePreset; rewrite currentPresetIndex_cases;
    cbn [value]; js_eval; reflexivity.
Qed.

End Panel.

Lemma activePreset_by_range_witness :
  0.8 <= 1.25
  /\ Controls.activePreset 1.25 = nth_error Controls.POWER_PRESETS 3.
Proof.
  assert (H : 0.8 <= 1.25) by lra.
  split; [exact H |].
  exact (proj2 (proj2 (proj2 (proj2 (activePreset_by_range 1.25)))) H).
Defined.

Section PauseButton.
Import Visualizer.
Variable p : Props.
Variable canvas : Canvas.
Variable lastTime : R.
Variable tr : TransitionState.
Variable observer : ObserverState.
Variable time : R.

(** X17: no control of the panel writes [localSiderealTime]; pressing the
    pause button twice gives back the observer as it was; and once a
    running observer is paused with it, a frame writes nothing to the
    observer, whatever the mode. *)
Theorem pause_button_stops_the_sky :
  (forall u,
     localSiderealTime (Controls.updateObserver observer u)
     = localSiderealTime observer)
  /\ Controls.togglePause (Controls.togglePause observer) = observer
  /\ (isPaused observer = false ->
      setObserverArg
        (render p canvas
           {| lastTimeRef := lastTime; transitionRef := tr;
              observerRef := Controls.togglePause observer |} time)
      = None).
Proof.
  split; [| split].
  - intros u. destruct u; reflexivity.
  - destruct observer as [lat lst lim paused speed].
    unfold Controls.togglePause. simpl. now rewrite negb_involutive.
  - intros Hrun. rewrite render_setObserverArg. unfold rotate.
    cbn [observerRef]. unfold Controls.togglePause. simpl isPaused.
    now rewrite Hrun.
Qed.

End PauseButton.

Lemma pause_button_stops_the_sky_witness :
  isPaused App.observer = false
  /\ Visualizer.setObserverArg
       (Visualizer.render (Sample.props AppMode.SKY []) Sample.canvas
          {| Visualizer.lastTimeRef := 1000;
             Visualizer.transitionRef := Visualizer.initialTransition AppMode.SKY;
             Visualizer.observerRef := Controls.togglePause App.observer |}
          1016)
     = None.
Proof.
  split; [reflexivity |].
  exact (proj2 (proj2 (pause_button_stops_the_sky (Sample.props AppMode.SKY [])
                         Sample.canvas 1000
                         (Visualizer.initialTransition AppMode.SKY)
                         App.observer 1016)) eq_refl).
Defined.

(** ** The catalogue as a whole *)

Section Catalogue.
Import StarGen.

Lemma genStar_identity i src k :
  id (fst (genStar i src k)) = i
  /\ color (fst (genStar i src k)) = TYPE_COLORS (type (pickType (src k)))
  /\ radius (fst (genStar i src k))
     = sqrt (luminosity (fst (genStar i src k)))
       / (temperature (fst (genStar i src k)) / 5778) ^ 2
  /\ absoluteMagnitude (fst (genStar i src k))
     = -2.5 * JS.log10 (luminosity (fst (genStar i src k))) + 4.83
  /\ baseSize (fst (genStar i src k))
     = Rmax 0.5 (2 - apparentMagnitude (fst (genStar i src k)) / 10).
Proof.
  cbv beta iota zeta delta
    [genStar bind ret random randomRange gaussianRandom galacticToEquatorial
     fst snd id color radius luminosity temperature absoluteMagnitude
     apparentMagnitude baseSize].
  repeat split.
Qed.

Lemma loop_ids src count : forall i k,
  map id (fst (loop count i src k)) = seq i count.
Proof.
  induction count as [| count IH]; intros i k; [reflexivity |].
  rewrite loop_step. cbn [map seq].
  rewrite (proj1 (genStar_identity i src k)). f_equal. apply IH.
Qed.

Lemma insert_Permutation s sorted : Permutation (insert s sorted) (s :: sorted).
Proof.
  induction sorted as [| h rest IH]; simpl; [apply Permutation_refl |].
  destruct (apparentMagnitude s <=? apparentMagnitude h);
    [apply Permutation_refl |].
  apply perm_trans with (h :: s :: rest);
    [now apply perm_skip | apply perm_swap].
Qed.

Lemma sort_Permutation l : Permutation (sort l) l.
Proof.
  induction l as [| s rest IH]; simpl; [apply perm_nil |].
  apply perm_trans with (s :: sort rest);
    [apply insert_Permutation | now apply perm_skip].
Qed.

Lemma insert_Sorted s sorted :
  Sorted (fun a b => apparentMagnitude a <= apparentMagnitude b) sorted ->
  Sorted (fun a b => apparentMagnitude a <= apparentMagnitude b) (insert s sorted).
Proof.
  induction sorted as [| h rest IH]; intros Hs; simpl.
  - repeat constructor.
  - destruct (apparentMagnitude s <=? apparentMagnitude h) eqn:E; js_cmp.
    + constructor; [exact Hs | now constructor].
    + inversion Hs as [| ? ? Hrest Hhd]; subst.
      constructor; [now apply IH |].
      destruct rest as [| h' rest']; simpl.
      * constructor. lra.
      * destruct (apparentMagnitude s <=? apparentMagnitude h').
        -- constructor. lra.
        -- constructor. now inversion Hhd.
Qed.

Lemma sort_Sorted l :
  Sorted (fun a b => apparentMagnitude a <= apparentMagnitude b) (sort l).
Proof.
  induction l as [| s rest IH]; simpl; [constructor | now apply insert_Sorted].
Qed.

Lemma catalogue_sort src :
  catalogue src = sort (fst (loop TOTAL_STARS 0 src 0%nat)).
Proof.
  unfold catalogue, generateStars, generate, bind, ret.
  generalize TOTAL_STARS. intros n.
  now destruct (loop n 0 src 0%nat).
Qed.

Variable src : nat -> R.

(** X18: whatever the draws, the catalogue holds exactly [TOTAL_STARS]
    (7000) stars, and sorting keeps the identifiers: they are a
    rearrangement of 0, ..., 6999, each occurring once. *)
Theorem catalogue_size_and_ids :
  List.length (catalogue src) = TOTAL_STARS
  /\ Permutation (map id (catalogue src)) (seq 0 TOTAL_STARS)
  /\ NoDup (map id (catalogue src)).
Proof.
  rewrite catalogue_sort.
  assert (Hp : Permutation (map id (sort (fst (loop TOTAL_STARS 0 src 0%nat))))
                 (seq 0 TOTAL_STARS)).
  { rewrite <- (loop_ids src TOTAL_STARS 0 0).
    apply Permutation_map, sort_Permutation. }
  split; [| split; [exact Hp |]].
  - rewrite <- (length_map id), (Permutation_length Hp). apply length_seq.
  - apply Permutation_sym in Hp.
    apply (Permutation_NoDup Hp), seq_NoDup.
Qed.

(** X19: the catalogue is in ascending order of apparent magnitude:
    every star is at least as bright as all the stars after it. *)
Theorem catalogue_is_sorted :
  StronglySorted (fun a b => apparentMagnitude a <= apparentMagnitude b)
    (catalogue src).
Proof.
  rewrite catalogue_sort.
  apply Sorted_StronglySorted; [| apply sort_Sorted].
  intros a b c Hab Hbc. lra.
Qed.

End Catalogue.

(** ** Equatorial coordinates *)

Section Equatorial.
Import StarGen.

Lemma atan_nonpos v : v <= 0 -> atan v <= 0.
Proof.
  intros [Hlt | ->]; [| rewrite atan_0; lra].
  left. rewrite <- atan_0. now apply atan_increasing.
Qed.

Lemma atan_pos v : 0 < v -> 0 < atan v.
Proof. intros Hv. rewrite <- atan_0. now apply atan_increasing. Qed.

Lemma quotient_by_negative y x : x < 0 -> (0 <= y -> y / x <= 0) /\ (y < 0 -> 0 < y / x).
Proof.
  intros Hx.
  assert (Hinv : / x < 0) by now apply Rinv_lt_0_compat.
  unfold Rdiv. split; intros Hy; nra.
Qed.

(** [Math.atan2] returns an angle in (-PI, PI]. *)
Lemma atan2_range y x : - PI < JS.atan2 y x <= PI.
Proof.
  pose proof PI_RGT_0 as Hpi.
  pose proof (atan_bound (y / x)) as [Hlo Hhi].
  unfold JS.atan2.
  destruct (Rlt_dec 0 x) as [Hx | Hx]; [lra |].
  destruct (Rlt_dec x 0) as [Hx' | Hx'].
  - destruct (quotient_by_negative y x Hx') as [Hq1 Hq2].
    destruct (Rle_dec 0 y) as [Hy | Hy].
    + pose proof (atan_nonpos _ (Hq1 Hy)). lra.
    + assert (Hyneg : y < 0) by lra.
      pose proof (atan_pos _ (Hq2 Hyneg)). lra.
  - destruct (Rlt_dec 0 y); [lra |].
    destruct (Rlt_dec y 0); lra.
Qed.

Lemma galacticToEquatorial_range l b :
  0 < fst (galacticToEquatorial l b) <= 360
  /\ -90 <= snd (galacticToEquatorial l b) <= 90.
Proof.
  pose proof PI_RGT_0 as Hpi.
  assert (Hk : 0 < 180 / PI) by (apply Rdiv_lt_0_compat; lra).
  assert (H360 : 2 * PI * (180 / PI) = 360) by (field; lra).
  assert (H90 : PI / 2 * (180 / PI) = 90) by (field; lra).
  unfold galacticToEquatorial. cbn [fst snd].
  set (y := cos (b * (PI / 180)) * sin (l * (PI / 180) - 122.93 * (PI / 180))).
  set (x := cos (27.13 * (PI / 180)) * sin (b * (PI / 180))
            - sin (27.13 * (PI / 180)) * cos (b * (PI / 180))
              * cos (l * (PI / 180) - 122.93 * (PI / 180))).
  set (sinDec := sin (27.13 * (PI / 180)) * sin (b * (PI / 180))
                 + cos (27.13 * (PI / 180)) * cos (b * (PI / 180))
                   * cos (l * (PI / 180) - 122.93 * (PI / 180))).
  pose proof (atan2_range y x) as [Hlo Hhi].
  assert (HalphaG : PI < 192.85 * (PI / 180) < 2 * PI) by lra.
  set (ra0 := JS.atan2 y x + 192.85 * (PI / 180)) in *.
  assert (Hra0 : 0 < ra0 < 3 * PI) by (unfold ra0; lra).
  replace (ra0 <? 0) with false by (symmetry; apply ltb_false; lra).
  split.
  - destruct (ra0 >? 2 * PI) eqn:E; js_cmp.
    + split.
      * apply Rmult_lt_0_compat; lra.
      * rewrite <- H360. apply Rmult_le_compat_r; lra.
    + split.
      * apply Rmult_lt_0_compat; lra.
      * rewrite <- H360. apply Rmult_le_compat_r; lra.
  - pose proof (asin_bound sinDec) as [Ha Hb]. split.
    + replace (-90) with (- (PI / 2) * (180 / PI)) by lra.
      apply Rmult_le_compat_r; lra.
    + rewrite <- H90. apply Rmult_le_compat_r; lra.
Qed.

Lemma genStar_equatorial i src k :
  exists l b,
    ra (fst (genStar i src k)) = fst (galacticToEquatorial l b)
    /\ dec (fst (genStar i src k)) = snd (galacticToEquatorial l b).
Proof.
  do 2 eexists.
  cbv beta iota zeta delta
    [genStar bind ret random randomRange gaussianRandom galacticToEquatorial
     fst snd ra dec].
  split; reflexivity.
Qed.

(** X20: whatever the draws, every star of the catalogue has a right
    ascension in (0, 360] degrees and a declination in [-90, 90]. *)
Theorem catalogue_equatorial_range src :
  Forall (fun star => 0 < ra star <= 360 /\ -90 <= dec star <= 90)
    (catalogue src).
Proof.
  apply Forall_forall. intros star Hin.
  apply catalogue_stars in Hin. destruct Hin as [j [k ->]].
  destruct (genStar_equatorial j src k) as [l [b [-> ->]]].
  apply galacticToEquatorial_range.
Qed.

End Equatorial.

(** ** Spectral classes *)

Section Classes.
Import StarGen.

(** X21: the class of a star is decided by where its first draw falls
    among the running sums of the weights: O below 0.00003, B below
    0.00133, A below 0.00733, F below 0.03733, G below 0.11333, K below
    0.23433 and M from there on, the draws beyond the total weight 0.99883
    included. *)
Theorem pickType_by_cumulative_weight rand :
  type (pickType rand)
  = if rand <? 0.00003 then SpectralType.O
    else if rand <? 0.00133 then SpectralType.B
    else if rand <? 0.00733 then SpectralType.A
    else if rand <? 0.03733 then SpectralType.F
    else if rand <? 0.11333 then SpectralType.G
    else if rand <? 0.23433 then SpectralType.K
    else SpectralType.M.
Proof.
  unfold pickType, SPECTRAL_WEIGHTS. cbn [walk weight List.length Nat.sub nth].
  destruct (rand <? 0.00003) eqn:E0; [reflexivity |].
  destruct (rand - 0.00003 <? 0.0013) eqn:E1;
    destruct (rand <? 0.00133) eqn:F1; js_cmp; try lra; [reflexivity |].
  destruct (rand - 0.00003 - 0.0013 <? 0.006) eqn:E2;
    destruct (rand <? 0.00733) eqn:F2; js_cmp; try lra; [reflexivity |].
  destruct (rand - 0.00003 - 0.0013 - 0.006 <? 0.03) eqn:E3;
    destruct (rand <? 0.03733) eqn:F3; js_cmp; try lra; [reflexivity |].
  destruct (rand - 0.00003 - 0.0013 - 0.006 - 0.03 <? 0.076) eqn:E4;
    destruct (rand <? 0.11333) eqn:F4; js_cmp; try lra; [reflexivity |].
  destruct (rand - 0.00003 - 0.0013 - 0.006 - 0.03 - 0.076 <? 0.121) eqn:E5;
    destruct (rand <? 0.23433) eqn:F5; js_cmp; try lra; [reflexivity |].
  destruct (rand - 0.00003 - 0.0013 - 0.006 - 0.03 - 0.076 - 0.121 <? 0.7645);
    reflexivity.
Qed.

Lemma pickType_in_table rand : In (pickType rand) SPECTRAL_WEIGHTS.
Proof.
  unfold pickType.
  destruct (walk_result SPECTRAL_WEIGHTS rand
              (nth (List.length SPECTRAL_WEIGHTS - 1) SPECTRAL_WEIGHTS
                   (mkTypeData SpectralType.M 0.7645 2400 3700)))
    as [Hin | ->]; [exact Hin |].
  simpl. tauto.
Qed.

Variable src : nat -> R.
Hypothesis src_range : forall k, 0 <= src k < 1.

(** X22: for draws in [0, 1) every star of the catalogue has the
    temperature range and the colour of its spectral class: some row of
    the weight table carries its class and bounds its temperature, from
    the minimum (included) to the maximum (excluded). *)
Theorem catalogue_class_consistent :
  Forall
    (fun star =>
       exists row,
         In row SPECTRAL_WEIGHTS
         /\ spectralType star = type row
         /\ minTemp row <= temperature star < maxTemp row
         /\ color star = TYPE_COLORS (spectralType star))
    (catalogue src).
Proof.
  apply Forall_forall. intros star Hin.
  apply catalogue_stars in Hin. destruct Hin as [j [k ->]].
  destruct (genStar_fields j src k) as [Hty [Ht _]].
  destruct (genStar_identity j src k) as [_ [Hc _]].
  exists (pickType (src k)).
  split; [apply pickType_in_table |]. split; [exact Hty |].
  split; [| now rewrite Hc, Hty].
  rewrite Ht.
  pose proof (pickType_temperatures (src k)) as Hrow.
  pose proof (src_range (S k)) as Hr.
  assert (Hlt : minTemp (pickType (src k)) < maxTemp (pickType (src k))).
  { pose proof (pickType_in_table (src k)) as Hin.
    unfold SPECTRAL_WEIGHTS in Hin. simpl in Hin.
    repeat (destruct Hin as [<- | Hin]; [simpl; lra |]). contradiction. }
  nra.
Qed.

End Classes.

Lemma catalogue_class_consistent_witness :
  (forall k, 0 <= Sample.hotSource k < 1)
  /\ Forall
       (fun star =>
          exists row,
            In row StarGen.SPECTRAL_WEIGHTS
            /\ spectralType star = StarGen.type row
            /\ StarGen.minTemp row <= temperature star < StarGen.maxTemp row
            /\ color star = StarGen.TYPE_COLORS (spectralType star))
       (StarGen.catalogue Sample.hotSource).
Proof.
  split; [exact hotSource_range |].
  exact (catalogue_class_consistent Sample.hotSource hotSource_range).
Defined.

(** ** Distance, magnitude and radius *)

Section Magnitudes.
Import StarGen.

(** [Math.log10] undoes [Math.pow (10, .)]. *)
Lemma log10_powr e : JS.log10 (JS.powr 10 e) = e.
Proof.
  unfold JS.log10, JS.powr. rewrite ln_exp.
  field. apply Rgt_not_eq, ln_10_pos.
Qed.

Lemma powr_ge_1 e : 0 <= e -> 1 <= JS.powr 10 e.
Proof.
  intros He. unfold JS.powr. rewrite <- exp_0.
  assert (H : 0 <= e * ln 10)
    by (apply Rmult_le_pos; [exact He | left; apply ln_10_pos]).
  destruct H as [H | <-]; [left; now apply exp_increasing | lra].
Qed.

Variable src : nat -> R.
Hypothesis src_range : forall k, 0 <= src k < 1.

(** X23: for draws in [0, 1) every star of the catalogue is at least one
    parsec away, its apparent and absolute magnitudes differ by the
    distance modulus [5 (log10 distance - 1)], and that difference lies in
    [-5, 14). *)
Theorem catalogue_distance_modulus :
  Forall
    (fun star =>
       1 <= distance star
       /\ apparentMagnitude star - absoluteMagnitude star
          = 5 * (JS.log10 (distance star) - 1)
       /\ -5 <= apparentMagnitude star - absoluteMagnitude star < 14)
    (catalogue src).
Proof.
  apply Forall_forall. intros star Hin.
  apply catalogue_stars in Hin. destruct Hin as [j [k ->]].
  destruct (genStar_fields j src k) as [_ [_ [_ [_ [_ [Hd Hm]]]]]].
  destruct (genStar_identity j src k) as [_ [_ [_ [Ha _]]]].
  pose proof (src_range (8 + k)%nat) as Hr.
  assert (Hlog : JS.log10 (distance (fst (genStar j src k)))
                 = src (8 + k)%nat * (3.8 - 0) + 0)
    by (rewrite Hd; apply log10_powr).
  split; [rewrite Hd; apply powr_ge_1; lra |].
  rewrite Hm, Ha, Hlog. split; lra.
Qed.

(** X24: for draws in [0, 1) every star of the catalogue has a positive
    radius tied to its luminosity and temperature by
    [radius^2 * (temperature / 5778)^4 = luminosity], and a base size of
    at least 0.5. *)
Theorem catalogue_radius_law :
  Forall
    (fun star =>
       0 < radius star
       /\ radius star * radius star * (temperature star / 5778) ^ 4
          = luminosity star
       /\ 0.5 <= baseSize star)
    (catalogue src).
Proof.
  apply Forall_forall. intros star Hin.
  apply catalogue_stars in Hin. destruct Hin as [j [k ->]].
  destruct (genStar_identity j src k) as [_ [_ [Hr [_ Hb]]]].
  pose proof (genStar_temperature src src_range j k) as Ht.
  destruct (genStar_luminosity src src_range j k) as [Hl _].
  set (star := fst (genStar j src k)) in *.
  assert (Hn : 0 < temperature star / 5778) by (apply Rdiv_lt_0_compat; lra).
  assert (Hn2 : 0 < (temperature star / 5778) ^ 2) by (apply pow_lt; exact Hn).
  assert (Hs : 0 < sqrt (luminosity star)) by (apply sqrt_lt_R0; exact Hl).
  split; [rewrite Hr; now apply Rdiv_lt_0_compat |].
  split; [| rewrite Hb; apply Rmax_l].
  rewrite Hr.
  replace (sqrt (luminosity star) / (temperature star / 5778) ^ 2
           * (sqrt (luminosity star) / (temperature star / 5778) ^ 2)
           * (temperature star / 5778) ^ 4)
    with (sqrt (luminosity star) * sqrt (luminosity star))
    by (field; lra).
  apply sqrt_sqrt. lra.
Qed.

End Magnitudes.

Lemma catalogue_distance_modulus_witness :
  (forall k, 0 <= Sample.hotSource k < 1)
  /\ Forall
       (fun star =>
          1 <= distance star
          /\ apparentMagnitude star - absoluteMagnitude star
             = 5 * (JS.log10 (distance star) - 1)
          /\ -5 <= apparentMagnitude star - absoluteMagnitude star < 14)
       (StarGen.catalogue Sample.hotSource).
Proof.
  split; [exact hotSource_range |].
  exact (catalogue_distance_modulus Sample.hotSource hotSource_range).
Defined.

Lemma catalogue_radius_law_witness :
  (forall k, 0 <= Sample.hotSource k < 1)
  /\ Forall
       (fun star =>
          0 < radius star
          /\ radius star * radius star * (temperature star / 5778) ^ 4
             = luminosity star
          /\ 0.5 <= baseSize star)
       (StarGen.catalogue Sample.hotSource).
Proof.
  split; [exact hotSource_range |].
  exact (catalogue_radius_law Sample.hotSource hotSource_range).
Defined.

(** ** Source and target of the transition *)

Section SourceAndTarget.
Import Visualizer.
Variable mode0 : AppMode.t.



End SourceAndTarget.

(** ** Who is seen in the sky *)

Section Seen.
Import Visualizer.
Variable p : Props.
Variable canvas : Canvas.
Variable refs : Refs.
Variable time : R.

Local Abbreviation limit := (effectiveLimit (observationalPower p) (observer p)).
Local Abbreviation altitude := (altDeg (observerRef refs)).

(** X26: in Sky or Classification mode, transition or not, a star of an
    active class that is strictly brighter than the effective limit and
    not below the horizon is drawn, with an alpha of at least 0.3 times
    its magnitude fade. *)
Theorem stars_above_horizon_are_drawn star :
  mode p = AppMode.SKY \/ mode p = AppMode.CLASSIFICATION ->
  In (spectralType star) (activeFilters p) ->
  apparentMagnitude star < limit ->
  0 <= altitude star ->
  exists cmd,
    frameBody p canvas refs time star = Drawn cmd
    /\ 0.3 * magnitudeAlpha limit star <= globalAlpha cmd
    /\ (In star (stars p) -> In cmd (draws (render p canvas refs time))).
Proof.
  intros Hm Hin Hmag Halt.
  assert (Hbody : exists cmd,
             frameBody p canvas refs time star = Drawn cmd
             /\ 0.3 * magnitudeAlpha limit star <= globalAlpha cmd).
  { unfold frameBody. destruct (advance time (transitionRef refs)) as [tr t].
    apply skyMode_true in Hm. apply includes_In in Hin.
    assert (Ha : 0 < magnitudeAlpha limit star).
    { unfold magnitudeAlpha. destruct (_ >? _); lra. }
    assert (He : 0.3 <= extinctionFactor (mode p) (observerRef refs) tr t star).
    { unfold extinctionFactor. rewrite Hm. unfold extinction.
      destruct (_ <? 30) eqn:E; js_cmp; lra. }
    assert (Hh : horizonFade (mode p) (observerRef refs) tr star = 1).
    { unfold horizonFade.
      replace (altitude star <? 0) with false
        by (symmetry; apply ltb_false; lra).
      reflexivity. }
    assert (Hfa : 0.3 * magnitudeAlpha limit star
                  <= finalAlpha (mode p) limit (observerRef refs) tr t star).
    { unfold finalAlpha. rewrite Hh. nra. }
    unfold body. rewrite Hin. simpl negb. cbv iota.
    replace (apparentMagnitude star >? limit) with false
      by (symmetry; apply gtb_false; lra).
    replace (horizonCull (mode p) (observerRef refs) tr star) with false.
    2:{ symmetry. unfold horizonCull.
        replace (altitude star <? -5) with false
          by (symmetry; apply ltb_false; lra).
        apply andb_false_r. }
    replace (finalAlpha (mode p) limit (observerRef refs) tr t star <=? 0)
      with false by (symmetry; apply leb_false; lra).
    eexists. split; [reflexivity | exact Hfa]. }
  destruct Hbody as [cmd [Hb Hg]]. exists cmd.
  split; [exact Hb |]. split; [exact Hg |].
  intros Hstar. apply render_draws. now exists star.
Qed.

(** X27: in Sky mode no star at 5 degrees or more below the horizon is
    drawn, on any frame: while a transition runs it is not culled, but its
    horizon fade is 0. *)
Theorem deep_stars_are_never_drawn_in_sky star :
  mode p = AppMode.SKY ->
  altitude star <= -5 ->
  forall cmd, frameBody p canvas refs time star <> Drawn cmd.
Proof.
  intros Hm Halt cmd Hbody.
  unfold frameBody in Hbody. destruct (advance time (transitionRef refs)) as [tr t].
  apply body_drawn in Hbody. destruct Hbody as [_ [_ [_ [Hpos _]]]].
  assert (Hh : horizonFade (mode p) (observerRef refs) tr star = 0).
  { unfold horizonFade. rewrite Hm.
    replace (altitude star <? 0) with true by (symmetry; apply ltb_true; lra).
    simpl. apply Rmax_left. lra. }
  unfold finalAlpha in Hpos. rewrite Hh in Hpos. lra.
Qed.

End Seen.

Lemma stars_above_horizon_are_drawn_witness :
  In (spectralType (Sample.star SpectralType.G 90 2)) App.activeFilters
  /\ apparentMagnitude (Sample.star SpectralType.G 90 2)
     < Visualizer.effectiveLimit App.observationalPower App.observer
  /\ 0 <= Visualizer.altDeg Sample.equator (Sample.star SpectralType.G 90 2)
  /\ exists cmd,
       Visualizer.frameBody
         (Sample.props AppMode.SKY [Sample.star SpectralType.G 90 2])
         Sample.canvas
         (Sample.refs (Visualizer.initialTransition AppMode.SKY) Sample.equator)
         1016 (Sample.star SpectralType.G 90 2)
       = Visualizer.Drawn cmd.
Proof.
  assert (Hin : In (spectralType (Sample.star SpectralType.G 90 2)) App.activeFilters)
    by (simpl; tauto).
  assert (Hm : apparentMagnitude (Sample.star SpectralType.G 90 2)
               < Visualizer.effectiveLimit App.observationalPower App.observer)
    by (rewrite limit_of_App; simpl; lra).
  assert (Ha : 0 <= Visualizer.altDeg Sample.equator (Sample.star SpectralType.G 90 2))
    by (rewrite altDeg_on_horizon; lra).
  split; [exact Hin |]. split; [exact Hm |]. split; [exact Ha |].
  destruct (stars_above_horizon_are_drawn
              (Sample.props AppMode.SKY [Sample.star SpectralType.G 90 2])
              Sample.canvas
              (Sample.refs (Visualizer.initialTransition AppMode.SKY) Sample.equator)
              1016 (Sample.star SpectralType.G 90 2)
              (or_introl eq_refl) Hin Hm Ha) as [cmd [Hb _]].
  now exists cmd.
Defined.

Lemma deep_stars_are_never_drawn_in_sky_witness :
  Visualizer.altDeg Sample.equator (Sample.star SpectralType.G 180 2) <= -5
  /\ forall cmd,
       Visualizer.frameBody
         (Sample.props AppMode.SKY [Sample.star SpectralType.G 180 2])
         Sample.canvas
         (Sample.refs (Sample.leaving AppMode.GALAXY AppMode.SKY 1000) Sample.equator)
         1016 (Sample.star SpectralType.G 180 2)
       <> Visualizer.Drawn cmd.
Proof.
  assert (Ha : Visualizer.altDeg Sample.equator (Sample.star SpectralType.G 180 2) <= -5)
    by (rewrite altDeg_at_nadir; lra).
  split; [exact Ha |].
  exact (deep_stars_are_never_drawn_in_sky
           (Sample.props AppMode.SKY [Sample.star SpectralType.G 180 2])
           Sample.canvas
           (Sample.refs (Sample.leaving AppMode.GALAXY AppMode.SKY 1000) Sample.equator)
           1016 (Sample.star SpectralType.G 180 2) eq_refl Ha).
Defined.

(** ** The catalogue on the HR diagram *)

Section OnTheDiagram.
Import Visualizer.
Variable src : nat -> R.
Hypothesis src_range : forall k, 0 <= src k < 1.
Variable current : ObserverState.
Variables time scaleFactor : R.

(** X28: for draws in [0, 1) and a canvas of positive size, the HR
    projection puts every star of the catalogue within 1.5 scale factors
    of the centre horizontally and no lower than 0.8 scale factors below
    it: to the right of the luminosity axis (drawn at -1.6) and above the
    temperature axis (drawn at +0.9). *)
Theorem catalogue_inside_HR_axes :
  0 < scaleFactor ->
  Forall
    (fun star =>
       - (1.5 * scaleFactor)
       <= x (getScreenPos current time scaleFactor star AppMode.HR_DIAGRAM)
       <= 1.5 * scaleFactor
       /\ y (getScreenPos current time scaleFactor star AppMode.HR_DIAGRAM)
          <= 0.8 * scaleFactor
       /\ - (1.6 * scaleFactor)
          < x (getScreenPos current time scaleFactor star AppMode.HR_DIAGRAM)
       /\ y (getScreenPos current time scaleFactor star AppMode.HR_DIAGRAM)
          < 0.9 * scaleFactor)
    (StarGen.catalogue src).
Proof.
  intros Hs. apply Forall_forall. intros star Hin.
  destruct (catalogue_bounds src src_range star Hin) as [[Hx1 Hx2] [Hy _]].
  simpl. repeat split; nra.
Qed.

End OnTheDiagram.

Lemma catalogue_inside_HR_axes_witness :
  (forall k, 0 <= Sample.hotSource k < 1)
  /\ 0 < 240
  /\ Forall
       (fun star =>
          - (1.5 * 240)
          <= Visualizer.x
               (Visualizer.getScreenPos App.observer 0 240 star AppMode.HR_DIAGRAM)
          <= 1.5 * 240
          /\ Visualizer.y
               (Visualizer.getScreenPos App.observer 0 240 star AppMode.HR_DIAGRAM)
             <= 0.8 * 240
          /\ - (1.6 * 240)
             < Visualizer.x
                 (Visualizer.getScreenPos App.observer 0 240 star AppMode.HR_DIAGRAM)
          /\ Visualizer.y
               (Visualizer.getScreenPos App.observer 0 240 star AppMode.HR_DIAGRAM)
             < 0.9 * 240)
       (StarGen.catalogue Sample.hotSource).
Proof.
  assert (Hs : 0 < 240) by lra.
  split; [exact hotSource_range |]. split; [exact Hs |].
  exact (catalogue_inside_HR_axes Sample.hotSource hotSource_range App.observer
           0 240 Hs).
Defined.

(** ** The first turn of the sky *)

Lemma frame_sidereal_time_witness :
  (isPaused App.observer = false /\ AppMode.SKY = AppMode.SKY)
  /\ Visualizer.lastTimeRef
       (Sample.refs (Visualizer.initialTransition AppMode.SKY) App.observer) <> 0
  /\ fst (Visualizer.tick
            (Visualizer.lastTimeRef
               (Sample.refs (Visualizer.initialTransition AppMode.SKY) App.observer))
            1016) = 16
  /\ exists written,
       Visualizer.setObserverArg
         (Visualizer.render (Sample.props AppMode.SKY []) Sample.canvas
            (Sample.refs (Visualizer.initialTransition AppMode.SKY) App.observer)
            1016)
       = Some written
       /\ localSiderealTime written = 0.16
       /\ latitude written = 45
       /\ timeSpeed written = 1.
Proof.
  assert (H : isPaused App.observer = false /\ AppMode.SKY = AppMode.SKY)
    by (split; reflexivity).
  assert (Hne : Visualizer.lastTimeRef
                  (Sample.refs (Visualizer.initialTransition AppMode.SKY)
                     App.observer) <> 0)
    by (simpl; lra).
  destruct (frame_sidereal_time (Sample.props AppMode.SKY []) Sample.canvas
              (Sample.refs (Visualizer.initialTransition AppMode.SKY) App.observer)
              1016)
    as [Hdelta [_ [_ [Hwrite _]]]].
  destruct (Hwrite H)
    as [written [Hw [_ [Hlst [_ [_ [_ [Hlat [_ [_ Hspeed]]]]]]]]]].
  split; [exact H |]. split; [exact Hne |].
  split; [rewrite (Hdelta Hne); simpl; lra |].
  exists written. split; [exact Hw |].
  split; [| split; [exact Hlat | exact Hspeed]].
  rewrite (Hlst Hne). simpl. rewrite rem_below; lra.
Defined.

(** ** A frame of the HR diagram *)

Lemma log10_10 : JS.log10 (1 * 10) = 1.
Proof.
  unfold JS.log10. replace (1 * 10) with 10 by lra.
  field. apply Rgt_not_eq, ln_10_pos.
Qed.

(** An idle HR-diagram frame over the sample star of magnitude 2 (physical
    radius 1) draws it with alpha 1, radius 2 and a blur of 6. *)
Lemma hr_frame_draws :
  exists cmd,
    Visualizer.draws
      (Visualizer.render
         (Sample.props AppMode.HR_DIAGRAM [Sample.star SpectralType.G 0 2])
         Sample.canvas
         (Sample.refs (Visualizer.initialTransition AppMode.HR_DIAGRAM) App.observer)
         1016) = [cmd]
    /\ Visualizer.globalAlpha cmd = 1
    /\ Visualizer.arcRadius cmd = 2
    /\ Visualizer.shadowBlur cmd = 6.
Proof.
  pose proof (render_forEach
                (Sample.props AppMode.HR_DIAGRAM [Sample.star SpectralType.G 0 2])
                Sample.canvas
                (Sample.refs (Visualizer.initialTransition AppMode.HR_DIAGRAM)
                   App.observer) 1016) as H.
  set (frame := Visualizer.render _ _ _ _) in *.
  unfold Visualizer.frameBody in H.
  cbn [fold_left Sample.props Visualizer.stars
       Sample.refs Visualizer.transitionRef Visualizer.observerRef
       Visualizer.mode Visualizer.observationalPower Visualizer.observer
       Visualizer.activeFilters] in H.
  rewrite advance_idle in H by (simpl; lra).
  rewrite limit_of_App in H.
  set (star := Sample.star SpectralType.G 0 2) in H.
  set (idle := Visualizer.initialTransition AppMode.HR_DIAGRAM) in H.
  assert (Hin : includes App.activeFilters (spectralType star) = true)
    by reflexivity.
  assert (Hm : apparentMagnitude star = 2) by reflexivity.
  assert (Hc : Visualizer.horizonCull AppMode.HR_DIAGRAM App.observer idle star = false).
  { unfold Visualizer.horizonCull. cbn [Visualizer.skyMode AppMode.eqb orb].
    now rewrite andb_false_r. }
  assert (Ha : Visualizer.finalAlpha AppMode.HR_DIAGRAM 3.6 App.observer idle
                 (Visualizer.progress idle) star = 1).
  { unfold Visualizer.finalAlpha, Visualizer.magnitudeAlpha,
      Visualizer.extinctionFactor, Visualizer.horizonFade.
    rewrite Hm.
    cbn [Visualizer.skyMode AppMode.eqb orb idle
         Visualizer.initialTransition Visualizer.sourceMode Visualizer.targetMode].
    replace (2 >? 3.6 - 1) with false by (symmetry; apply gtb_false; lra).
    rewrite andb_false_r. lra. }
  assert (Hr : Visualizer.starRadius AppMode.HR_DIAGRAM star = 2).
  { rewrite starRadius_HR.
    change (radius star) with 1. rewrite log10_10.
    rewrite Rmax_right; lra. }
  unfold Visualizer.body in H. rewrite Hin, Hm, Hc, Ha, Hr in H.
  replace (2 >? 3.6) with false in H by (symmetry; apply gtb_false; lra).
  replace (1 <=? 0) with false in H by (symmetry; apply leb_false; lra).
  replace (2 >? 1.8) with true in H by (symmetry; apply gtb_true; lra).
  replace (1 >? 0.5) with true in H by (symmetry; apply gtb_true; lra).
  cbn [negb andb fst snd app] in H.
  injection H as Hn Hd.
  eexists. split; [exact Hd |]. simpl. repeat split; lra.
Qed.

Lemma drawn_radius_is_positive_witness :
  (Visualizer.mode
     (Sample.props AppMode.HR_DIAGRAM [Sample.star SpectralType.G 0 2])
   = AppMode.HR_DIAGRAM ->
   Forall (fun star => 0 < radius star)
     (Visualizer.stars
        (Sample.props AppMode.HR_DIAGRAM [Sample.star SpectralType.G 0 2])))
  /\ exists cmd,
       In cmd
          (Visualizer.draws
             (Visualizer.render
                (Sample.props AppMode.HR_DIAGRAM [Sample.star SpectralType.G 0 2])
                Sample.canvas
                (Sample.refs (Visualizer.initialTransition AppMode.HR_DIAGRAM)
                   App.observer) 1016))
       /\ Visualizer.arcRadius cmd = 2
       /\ 0.5 <= Visualizer.arcRadius cmd
       /\ 1 <= Visualizer.arcRadius cmd.
Proof.
  assert (Hradius :
            Visualizer.mode
              (Sample.props AppMode.HR_DIAGRAM [Sample.star SpectralType.G 0 2])
            = AppMode.HR_DIAGRAM ->
            Forall (fun star => 0 < radius star)
              (Visualizer.stars
                 (Sample.props AppMode.HR_DIAGRAM [Sample.star SpectralType.G 0 2]))).
  { intros _. simpl. constructor; [simpl; lra | constructor]. }
  split; [exact Hradius |].
  destruct hr_frame_draws as [cmd [Hd [_ [Hr _]]]].
  exists cmd.
  assert (Hin : In cmd
                  (Visualizer.draws
                     (Visualizer.render
                        (Sample.props AppMode.HR_DIAGRAM
                           [Sample.star SpectralType.G 0 2])
                        Sample.canvas
                        (Sample.refs (Visualizer.initialTransition AppMode.HR_DIAGRAM)
                           App.observer) 1016)))
    by (rewrite Hd; now left).
  split; [exact Hin |]. split; [exact Hr |].
  pose proof (drawn_radius_is_positive
                (Sample.props AppMode.HR_DIAGRAM [Sample.star SpectralType.G 0 2])
                Sample.canvas
                (Sample.refs (Visualizer.initialTransition AppMode.HR_DIAGRAM)
                   App.observer) 1016 Hradius) as Hall.
  rewrite Forall_forall in Hall.
  destruct (Hall cmd Hin) as [H05 [H1 _]].
  split; [exact H05 | exact (H1 eq_refl)].
Defined.

Lemma glow_only_for_bright_stars_witness :
  (Visualizer.mode
     (Sample.props AppMode.HR_DIAGRAM [Sample.star SpectralType.G 0 2])
   = AppMode.HR_DIAGRAM ->
   Forall (fun star => 0 < radius star)
     (Visualizer.stars
        (Sample.props AppMode.HR_DIAGRAM [Sample.star SpectralType.G 0 2])))
  /\ exists cmd,
       In cmd
          (Visualizer.draws
             (Visualizer.render
                (Sample.props AppMode.HR_DIAGRAM [Sample.star SpectralType.G 0 2])
                Sample.canvas
                (Sample.refs (Visualizer.initialTransition AppMode.HR_DIAGRAM)
                   App.observer) 1016))
       /\ 1.8 < Visualizer.arcRadius cmd
       /\ 0.5 < Visualizer.globalAlpha cmd
       /\ Visualizer.shadowBlur cmd = Visualizer.arcRadius cmd * 3.
Proof.
  assert (Hradius :
            Visualizer.mode
              (Sample.props AppMode.HR_DIAGRAM [Sample.star SpectralType.G 0 2])
            = AppMode.HR_DIAGRAM ->
            Forall (fun star => 0 < radius star)
              (Visualizer.stars
                 (Sample.props AppMode.HR_DIAGRAM [Sample.star SpectralType.G 0 2]))).
  { intros _. simpl. constructor; [simpl; lra | constructor]. }
  split; [exact Hradius |].
  destruct hr_frame_draws as [cmd [Hd [Ha [Hr _]]]].
  exists cmd.
  assert (Hin : In cmd
                  (Visualizer.draws
                     (Visualizer.render
                        (Sample.props AppMode.HR_DIAGRAM
                           [Sample.star SpectralType.G 0 2])
                        Sample.canvas
                        (Sample.refs (Visualizer.initialTransition AppMode.HR_DIAGRAM)
                           App.observer) 1016)))
    by (rewrite Hd; now left).
  assert (H18 : 1.8 < Visualizer.arcRadius cmd) by (rewrite Hr; lra).
  assert (H05 : 0.5 < Visualizer.globalAlpha cmd) by (rewrite Ha; lra).
  split; [exact Hin |]. split; [exact H18 |]. split; [exact H05 |].
  pose proof (glow_only_for_bright_stars
                (Sample.props AppMode.HR_DIAGRAM [Sample.star SpectralType.G 0 2])
                Sample.canvas
                (Sample.refs (Visualizer.initialTransition AppMode.HR_DIAGRAM)
                   App.observer) 1016 Hradius) as Hall.
  rewrite Forall_forall in Hall.
  destruct (Hall cmd Hin) as [Hglow _].
  exact (Hglow (conj H18 H05)).
Defined.
